(** * HyperliquidClient: connection manager of the market-data SDK

    A shallow embedding of [client.ts] (class [HyperliquidClient]) and of the
    parts of [types.ts] it uses.  The class is event driven: callers invoke
    its methods, the socket.io transport delivers messages to the listeners
    the class installed, and timers fire.  The embedding keeps the fields of
    the class, the sockets created by [io(...)] with their listener tables,
    the timers created by [setTimeout], the promises handed to callers and a
    trace of what is observable from outside (event emissions, handler
    invocations, console errors).  Methods are written in a small
    state-and-exception monad so that they read like the TypeScript. *)

From Stdlib Require Import ZArith QArith String List Bool Lia.
From stdpp Require Import base option list gmap strings.
Import ListNotations.

Local Open Scope string_scope.
Local Open Scope list_scope.
Set Warnings "-register-all".

(** ** Data model *)

(** [types.ts]: [export type ConnectionState = "disconnected" | ...]. *)
Inductive ConnectionState : Type :=
| Disconnected
| Connecting
| Connected
| Reconnecting
| Error.

#[global] Instance ConnectionState_eq_dec : EqDecision ConnectionState.
Proof. solve_decision. Defined.

(** The string literal each state is written as in the source. *)
Definition state_name (s : ConnectionState) : string :=
  match s with
  | Disconnected => "disconnected"
  | Connecting => "connecting"
  | Connected => "connected"
  | Reconnecting => "reconnecting"
  | Error => "error"
  end.

(** [types.ts]: [export type Network = "mainnet" | "testnet"]. *)
Inductive Network : Type := mainnet | testnet.

Definition NETWORK_URLS (n : Network) : string :=
  match n with
  | mainnet => "wss://api.nylium.xyz"
  | testnet => "wss://testnet.api.nylium.xyz"
  end.

Definition DEFAULT_NETWORK : Network := mainnet.

(** JavaScript values that travel through the client as payloads.  Numbers
    are exact rationals: the rounding of IEEE doubles is outside the model. *)
Inductive value : Type :=
| VUndefined
| VNull
| VBool (b : bool)
| VNum (q : Q)
| VStr (s : string)
| VArr (items : list value)
| VObj (fields : list (string * value)).

(** [data.k]: reading a property off an object; a missing property reads as
    [undefined].  The listeners' parameter annotations make every payload
    whose property is read an object. *)
Fixpoint assoc_field (k : string) (fields : list (string * value)) : value :=
  match fields with
  | [] => VUndefined
  | (k', v) :: rest => if String.eqb k k' then v else assoc_field k rest
  end.

Definition field (k : string) (v : value) : value :=
  match v with
  | VObj fields => assoc_field k fields
  | _ => VUndefined
  end.

(** The [message] of an [Error]-like value, as a string. *)
Definition message_of (v : value) : string :=
  match field "message" v with
  | VStr s => s
  | _ => ""
  end.

(** JavaScript truthiness, used by [!this.authenticatedWallet]. *)
Definition truthy (v : value) : bool :=
  match v with
  | VUndefined | VNull => false
  | VBool b => b
  | VNum q => negb (Qeq_bool q 0)
  | VStr s => negb (String.eqb s "")
  | VArr _ | VObj _ => true
  end.

(** [v === s] for a string literal [s]. *)
Definition is_string (s : string) (v : value) : bool :=
  match v with
  | VStr s' => String.eqb s' s
  | _ => false
  end.

(** [types.ts]: [ClientOptions], every field optional. *)
Record ClientOptions : Type := mkClientOptions {
  opt_network : option Network;
  opt_url : option string;
  opt_autoReconnect : option bool;
  opt_reconnectDelay : option Q;
  opt_maxReconnectAttempts : option Z;
  opt_debug : option bool
}.

(** [client.ts]: [interface InternalOptions]. *)
Record InternalOptions : Type := mkInternalOptions {
  network : Network;
  url : string;
  autoReconnect : bool;
  reconnectDelay : Q;
  maxReconnectAttempts : Z;
  debug : bool
}.

(** A caller-supplied handler closure.  [h_id] is its identity as a function
    object (what [Set.add] and [Set.delete] compare); [h_call data] is
    [Some e] when the call [handler(data)] throws [e] and [None] when it
    returns.  Handlers are opaque to the client: in the model they do not
    call back into it. *)
Record Handler : Type := mkHandler {
  h_id : nat;
  h_call : value -> option string
}.

(** The closures the class installs on a socket, one constructor per
    [socket.on]/[socket.once] site; the parameters are the variables the
    closure captures. *)
Inductive ListenerBody : Type :=
| OnConnected (promise : nat)              (* connect(): "connected" *)
| OnConnectError (promise : nat)           (* connect(): "connect_error" *)
| OnDisconnect                             (* connect(): "disconnect" *)
| OnServerError                            (* connect(): "error" *)
| Relay (logical : string)                 (* setupDataListeners: this.emit(logical, data) *)
| RelayBalance                             (* setupDataListeners: this.emit("balance", data.balance) *)
| OnAuthenticated (timeout promise : nat)  (* authenticate(): once "authenticated" *)
| OnAuthError (timeout promise : nat).     (* authenticate(): once "auth:error" *)

#[global] Instance ListenerBody_eq_dec : EqDecision ListenerBody.
Proof. solve_decision. Defined.

Record Listener : Type := mkListener {
  l_event : string;
  l_once : bool;
  l_body : ListenerBody
}.

#[global] Instance Listener_eq_dec : EqDecision Listener.
Proof. solve_decision. Defined.

(** Transport status of a socket.io [Socket]: being opened, connected at the
    transport level, or closed for good ([reconnection: false]). *)
Inductive SockStatus : Type := SOpening | SConnected | SClosed.

#[global] Instance SockStatus_eq_dec : EqDecision SockStatus.
Proof. solve_decision. Defined.

(** A message written to the socket by [socket.emit]; [m_ack] is the promise
    that the acknowledgement callback passed along resolves, if any. *)
Record Sent : Type := mkSent {
  m_event : string;
  m_data : value;
  m_ack : option nat
}.

Record Sock : Type := mkSock {
  s_url : string;
  s_status : SockStatus;
  s_listeners : list Listener;
  s_sent : list Sent
}.

(** Callbacks given to [setTimeout]. *)
Inductive TimerCallback : Type :=
| TReconnect                  (* scheduleReconnect: () => this.connect().catch(() => {}) *)
| TAuthTimeout (promise : nat). (* authenticate: () => reject(new Error("Authentication timeout")) *)

Record Timer : Type := mkTimer {
  t_callback : TimerCallback;
  t_delay : Q;
  t_pending : bool
}.

Inductive PromiseState : Type :=
| Pending
| Resolved (v : value)
| Rejected (e : string).

(** What an outside observer can see, in the order it happens. *)
Inductive Obs : Type :=
| Emit (event : string) (data : value)               (* this.emit(event, data) was called *)
| Invoked (event : string) (handler : nat) (data : value) (* handler(data) was called *)
| ConsoleError (event : string) (e : string).         (* console.error in emit's catch *)

(** The fields of a [HyperliquidClient] instance, followed by the part of
    the environment it acts on. *)
Record World : Type := mkWorld {
  socket : option nat;
  options : InternalOptions;
  state : ConnectionState;
  reconnectAttempts : Z;
  reconnectTimer : option nat;
  authenticatedWallet : value;
  eventHandlers : gmap string (list Handler);
  sockets : list Sock;
  timers : list Timer;
  promises : list PromiseState;
  trace : list Obs
}.

Definition set_socket (x : option nat) (w : World) : World :=
  mkWorld x (options w) (state w) (reconnectAttempts w) (reconnectTimer w)
    (authenticatedWallet w) (eventHandlers w) (sockets w) (timers w)
    (promises w) (trace w).
Definition set_state (x : ConnectionState) (w : World) : World :=
  mkWorld (socket w) (options w) x (reconnectAttempts w) (reconnectTimer w)
    (authenticatedWallet w) (eventHandlers w) (sockets w) (timers w)
    (promises w) (trace w).
Definition set_reconnectAttempts (x : Z) (w : World) : World :=
  mkWorld (socket w) (options w) (state w) x (reconnectTimer w)
    (authenticatedWallet w) (eventHandlers w) (sockets w) (timers w)
    (promises w) (trace w).
Definition set_reconnectTimer (x : option nat) (w : World) : World :=
  mkWorld (socket w) (options w) (state w) (reconnectAttempts w) x
    (authenticatedWallet w) (eventHandlers w) (sockets w) (timers w)
    (promises w) (trace w).
Definition set_authenticatedWallet (x : value) (w : World) : World :=
  mkWorld (socket w) (options w) (state w) (reconnectAttempts w)
    (reconnectTimer w) x (eventHandlers w) (sockets w) (timers w)
    (promises w) (trace w).
Definition set_eventHandlers (x : gmap string (list Handler)) (w : World) : World :=
  mkWorld (socket w) (options w) (state w) (reconnectAttempts w)
    (reconnectTimer w) (authenticatedWallet w) x (sockets w) (timers w)
    (promises w) (trace w).
Definition set_sockets (x : list Sock) (w : World) : World :=
  mkWorld (socket w) (options w) (state w) (reconnectAttempts w)
    (reconnectTimer w) (authenticatedWallet w) (eventHandlers w) x (timers w)
    (promises w) (trace w).
Definition set_timers (x : list Timer) (w : World) : World :=
  mkWorld (socket w) (options w) (state w) (reconnectAttempts w)
    (reconnectTimer w) (authenticatedWallet w) (eventHandlers w) (sockets w) x
    (promises w) (trace w).
Definition set_promises (x : list PromiseState) (w : World) : World :=
  mkWorld (socket w) (options w) (state w) (reconnectAttempts w)
    (reconnectTimer w) (authenticatedWallet w) (eventHandlers w) (sockets w)
    (timers w) x (trace w).
Definition set_trace (x : list Obs) (w : World) : World :=
  mkWorld (socket w) (options w) (state w) (reconnectAttempts w)
    (reconnectTimer w) (authenticatedWallet w) (eventHandlers w) (sockets w)
    (timers w) (promises w) x.

(** ** The monad: state with exceptions

    A computation takes the world and returns the new world together with
    either a value or a thrown error.  As in JavaScript, the effects made
    before a [throw] stay. *)
Inductive Res (A : Type) : Type :=
| Ok (a : A)
| Throw (e : string).
Arguments Ok {A} a.
Arguments Throw {A} e.

Definition M (A : Type) : Type := World -> World * Res A.

Definition ret {A} (a : A) : M A := fun w => (w, Ok a).

Definition bind {A B} (c : M A) (k : A -> M B) : M B :=
  fun w =>
    match c w with
    | (w', Ok a) => k a w'
    | (w', Throw e) => (w', Throw e)
    end.

Definition throw {A} (e : string) : M A := fun w => (w, Throw e).

Definition get : M World := fun w => (w, Ok w).

Definition modify (f : World -> World) : M unit := fun w => (f w, Ok tt).

(** [try { body } catch (e) { handler(e) }]. *)
Definition try_catch {A} (body : M A) (handler : string -> M A) : M A :=
  fun w =>
    match body w with
    | (w', Ok a) => (w', Ok a)
    | (w', Throw e) => handler e w'
    end.

Declare Scope m_scope.
Delimit Scope m_scope with M.
Notation "'do' x <- c1 ; c2" := (bind c1 (fun x => c2))
  (at level 10, x name, c1 at level 100, c2 at level 200) : m_scope.
Notation "c1 ;; c2" := (bind c1 (fun _ => c2))
  (at level 100, c2 at level 200, right associativity) : m_scope.
Local Open Scope m_scope.

(** [list.forEach(f)]: stops at the first call that throws. *)
Fixpoint forEach {A} (f : A -> M unit) (l : list A) : M unit :=
  match l with
  | [] => ret tt
  | x :: rest => f x ;; forEach f rest
  end.

Definition observe (o : Obs) : M unit :=
  modify (fun w => set_trace (trace w ++ [o]) w).

(** ** Environment primitives: promises, timers, sockets *)

(** [new Promise(...)]: a fresh pending promise. *)
Definition new_promise : M nat :=
  do w <- get;
  modify (set_promises (promises w ++ [Pending]));;
  ret (length (promises w)).

(** A promise created already settled, for an [async] function that returns
    or throws before it suspends. *)
Definition settled_promise (s : PromiseState) : M nat :=
  do w <- get;
  modify (set_promises (promises w ++ [s]));;
  ret (length (promises w)).

(** [resolve(v)] and [reject(e)] settle a pending promise and do nothing to
    a settled one. *)
Definition settle (p : nat) (s : PromiseState) : M unit :=
  modify (fun w =>
    match promises w !! p with
    | Some Pending => set_promises (<[p := s]> (promises w)) w
    | _ => w
    end).

Definition resolve (p : nat) (v : value) : M unit := settle p (Resolved v).
Definition reject (p : nat) (e : string) : M unit := settle p (Rejected e).

(** An [async] method: a body that throws before suspending yields a
    rejected promise instead of throwing at the caller. *)
Definition async (body : M nat) : M nat :=
  try_catch body (fun e => settled_promise (Rejected e)).

(** [setTimeout(callback, delay)]. *)
Definition setTimeout (cb : TimerCallback) (delay : Q) : M nat :=
  do w <- get;
  modify (set_timers (timers w ++ [mkTimer cb delay true]));;
  ret (length (timers w)).

Definition cancel_timer (t : Timer) : Timer :=
  mkTimer (t_callback t) (t_delay t) false.

(** [clearTimeout(id)]. *)
Definition clearTimeout (id : nat) : M unit :=
  modify (fun w => set_timers (alter cancel_timer id (timers w)) w).

(** [io(url, { transports: ["websocket"], reconnection: false })]: a new
    socket, being opened, with no listener yet. *)
Definition io (u : string) : M nat :=
  do w <- get;
  modify (set_sockets (sockets w ++ [mkSock u SOpening [] []]));;
  ret (length (sockets w)).

Definition add_listener (l : Listener) (s : Sock) : Sock :=
  mkSock (s_url s) (s_status s) (s_listeners s ++ [l]) (s_sent s).

Definition add_sent (m : Sent) (s : Sock) : Sock :=
  mkSock (s_url s) (s_status s) (s_listeners s) (s_sent s ++ [m]).

Definition set_status (st : SockStatus) (s : Sock) : Sock :=
  mkSock (s_url s) st (s_listeners s) (s_sent s).

(** Removes the first listener equal to [l], as [socket.off] does for a
    one-shot listener that is about to run. *)
Fixpoint remove_first (l : Listener) (ls : list Listener) : list Listener :=
  match ls with
  | [] => []
  | x :: rest => if decide (x = l) then rest else x :: remove_first l rest
  end.

Definition drop_listener (l : Listener) (s : Sock) : Sock :=
  mkSock (s_url s) (s_status s) (remove_first l (s_listeners s)) (s_sent s).

Definition update_socket (sid : nat) (f : Sock -> Sock) : M unit :=
  modify (fun w => set_sockets (alter f sid (sockets w)) w).

(** [this.socket.on(event, body)] / [this.socket!.once(event, body)] /
    [this.socket!.emit(event, data)]: the non-null assertion [!] is erased
    by the compiler, so a null socket is a [TypeError] at run time. *)
Definition with_socket {A} (k : nat -> M A) : M A :=
  do w <- get;
  match socket w with
  | Some sid => k sid
  | None => throw "TypeError: Cannot read properties of null"
  end.

Definition socket_on (event : string) (body : ListenerBody) : M unit :=
  with_socket (fun sid => update_socket sid (add_listener (mkListener event false body))).

Definition socket_once (event : string) (body : ListenerBody) : M unit :=
  with_socket (fun sid => update_socket sid (add_listener (mkListener event true body))).

Definition socket_emit (event : string) (data : value) (ack : option nat) : M unit :=
  with_socket (fun sid => update_socket sid (add_sent (mkSent event data ack))).

(** ** The class [HyperliquidClient]

    [this.log(...)] prints to the console when [options.debug] is set and
    touches no field; the calls are left out of the embedding. *)

(** [constructor(options?: ClientOptions)].  [a || b] takes [b] when [a] is
    missing or falsy (the empty string), [a ?? b] only when it is missing. *)
Definition resolve_options (o : ClientOptions) : InternalOptions :=
  let network := default DEFAULT_NETWORK (opt_network o) in
  let url :=
    match opt_url o with
    | Some u => if String.eqb u "" then NETWORK_URLS network else u
    | None => NETWORK_URLS network
    end in
  mkInternalOptions network url
    (default true (opt_autoReconnect o))
    (default 1000%Q (opt_reconnectDelay o))
    (default 10%Z (opt_maxReconnectAttempts o))
    (default false (opt_debug o)).

Definition new_client (o : ClientOptions) : World :=
  mkWorld None (resolve_options o) Disconnected 0%Z None VNull ∅ [] [] [] [].

Definition no_options : ClientOptions :=
  mkClientOptions None None None None None None.

Definition getNetwork (w : World) : Network := network (options w).
Definition getState (w : World) : ConnectionState := state w.
Definition getAuthenticatedWallet (w : World) : value := authenticatedWallet w.

(** [handler(data)]: the call is observed, then returns or throws. *)
Definition call_handler (event : string) (h : Handler) (data : value) : M unit :=
  observe (Invoked event (h_id h) data);;
  match h_call h data with
  | Some e => throw e
  | None => ret tt
  end.

(** [private emit(event, data)].  The first [observe] records the call
    itself, so that an emission with no handler registered is still
    visible in the trace. *)
Definition emit (event : string) (data : value) : M unit :=
  observe (Emit event data);;
  do w <- get;
  match eventHandlers w !! event with
  | Some handlers =>
      forEach (fun h =>
        try_catch (call_handler event h data)
                  (fun e => observe (ConsoleError event e)))
        handlers
  | None => ret tt
  end.

(** [private setState(state)]. *)
Definition setState (s : ConnectionState) : M unit :=
  modify (set_state s);;
  emit "stateChange" (VStr (state_name s)).

(** [Math.pow(1.5, n)] over exact rationals. *)
Definition pow_1_5 (n : Z) : Q := Qpower (3 # 2) n.

(** [private scheduleReconnect()]. *)
Definition scheduleReconnect : M unit :=
  do w <- get;
  if (maxReconnectAttempts (options w) <=? reconnectAttempts w)%Z then
    setState Error;;
    emit "error"
      (VObj [("code", VStr "MAX_RECONNECT_ATTEMPTS");
             ("message", VStr "Maximum reconnection attempts reached")])
  else
    modify (set_reconnectAttempts (reconnectAttempts w + 1));;
    setState Reconnecting;;
    do w <- get;
    let delay :=
      (reconnectDelay (options w) * pow_1_5 (reconnectAttempts w - 1))%Q in
    emit "reconnecting"
      (VObj [("attempt", VNum (inject_Z (reconnectAttempts w)));
             ("maxAttempts", VNum (inject_Z (maxReconnectAttempts (options w))))]);;
    do t <- setTimeout TReconnect delay;
    modify (set_reconnectTimer (Some t)).

(** [private handleConnectionError(error)]. *)
Definition handleConnectionError (error : value) : M unit :=
  emit "error"
    (VObj [("code", VStr "CONNECTION_ERROR");
           ("message", field "message" error)]);;
  do w <- get;
  if autoReconnect (options w) then scheduleReconnect else setState Error.

(** [private handleDisconnect(reason)]. *)
Definition handleDisconnect (reason : value) : M unit :=
  setState Disconnected;;
  emit "disconnected" (VObj [("reason", reason)]);;
  do w <- get;
  if autoReconnect (options w) && negb (is_string "io client disconnect" reason)
  then scheduleReconnect
  else ret tt.

(** The table behind [private setupDataListeners()]: transport message name
    and the closure installed for it, in the order of the source. *)
Definition data_listeners : list (string * ListenerBody) :=
  [ ("prices:snapshot", Relay "prices");
    ("prices:update", Relay "prices");
    ("price:snapshot", Relay "price");
    ("price:update", Relay "price");
    ("orderbook:snapshot", Relay "orderbook");
    ("orderbook:update", Relay "orderbook");
    ("trades:snapshot", Relay "trades");
    ("trades:update", Relay "trades");
    ("candle:snapshot", Relay "candles");
    ("candle:update", Relay "candle");
    ("position:snapshot", Relay "positions");
    ("position:update", Relay "position");
    ("position:closed", Relay "positionClosed");
    ("openOrder:snapshot", Relay "openOrders");
    ("openOrder:update", Relay "openOrder");
    ("openOrder:removed", Relay "orderRemoved");
    ("orderHistory:snapshot", Relay "orderHistory");
    ("orderHistory:update", Relay "orderFill");
    ("funding:snapshot", Relay "fundings");
    ("funding:update", Relay "funding");
    ("balance:update", RelayBalance);
    ("subscribed", Relay "subscribed");
    ("unsubscribed", Relay "unsubscribed") ].

(** [private setupDataListeners()]. *)
Definition setupDataListeners : M unit :=
  do w <- get;
  match socket w with
  | None => ret tt
  | Some _ => forEach (fun '(event, body) => socket_on event body) data_listeners
  end.

(** [async connect()].  The guard returns before anything is touched; past
    it the executor of [new Promise] runs at once: it opens the socket and
    installs the four lifecycle listeners and the data listeners. *)
Definition connect : M nat :=
  async (
    do w <- get;
    if bool_decide (state w = Connected) || bool_decide (state w = Connecting)
    then settled_promise (Resolved VUndefined)
    else
      setState Connecting;;
      do p <- new_promise;
      do w <- get;
      do sid <- io (url (options w));
      modify (set_socket (Some sid));;
      socket_on "connected" (OnConnected p);;
      socket_on "connect_error" (OnConnectError p);;
      socket_on "disconnect" OnDisconnect;;
      socket_on "error" OnServerError;;
      setupDataListeners;;
      ret p).

(** What a listener installed by the class does when the socket calls it
    with [data]. *)
Definition run_listener (body : ListenerBody) (data : value) : M unit :=
  match body with
  | OnConnected p =>
      setState Connected;;
      modify (set_reconnectAttempts 0);;
      emit "connected" data;;
      resolve p VUndefined
  | OnConnectError p =>
      handleConnectionError data;;
      do w <- get;
      if bool_decide (state w = Connecting)
      then reject p (message_of data)
      else ret tt
  | OnDisconnect => handleDisconnect data
  | OnServerError => emit "error" data
  | Relay logical => emit logical data
  | RelayBalance => emit "balance" (field "balance" data)
  | OnAuthenticated timeout p =>
      clearTimeout timeout;;
      modify (set_authenticatedWallet (field "wallet" data));;
      emit "authenticated" data;;
      resolve p VUndefined
  | OnAuthError timeout p =>
      clearTimeout timeout;;
      reject p (message_of data)
  end.

(** The socket delivering [event] with [data] to its listeners
    (socket.io's emitter): the listeners registered for the event when the
    delivery starts are called in registration order, a one-shot listener
    being removed just before it runs. *)
Definition deliver_to (sid : nat) (data : value) (l : Listener) : M unit :=
  (if l_once l then update_socket sid (drop_listener l) else ret tt);;
  run_listener (l_body l) data.

Definition listeners_for (event : string) (s : Sock) : list Listener :=
  filter (fun l => l_event l = event) (s_listeners s).

Definition socket_dispatch (sid : nat) (event : string) (data : value) : M unit :=
  do w <- get;
  match sockets w !! sid with
  | Some s => forEach (deliver_to sid data) (listeners_for event s)
  | None => ret tt
  end.

(** [socket.disconnect()] of socket.io: the socket is closed, and when it
    was connected its "disconnect" listeners run at once with the reason
    "io client disconnect" (the reason [handleDisconnect] tests for). *)
Definition socket_disconnect (sid : nat) : M unit :=
  do w <- get;
  match sockets w !! sid with
  | Some s =>
      update_socket sid (set_status SClosed);;
      if bool_decide (s_status s = SConnected)
      then socket_dispatch sid "disconnect" (VStr "io client disconnect")
      else ret tt
  | None => ret tt
  end.

(** [disconnect()]. *)
Definition disconnect : M unit :=
  do w <- get;
  match reconnectTimer w with
  | Some t => clearTimeout t;; modify (set_reconnectTimer None)
  | None => ret tt
  end;;
  do w <- get;
  match socket w with
  | Some sid => socket_disconnect sid;; modify (set_socket None)
  | None => ret tt
  end;;
  setState Disconnected;;
  modify (set_authenticatedWallet VNull).

Definition NOT_CONNECTED : string := "Not connected. Call connect() first.".
Definition NOT_AUTHENTICATED : string :=
  "Not authenticated. Call authenticate(wallet) first.".

(** [private ensureConnected()]. *)
Definition ensureConnected : M unit :=
  do w <- get;
  if bool_decide (socket w = None) || negb (bool_decide (state w = Connected))
  then throw NOT_CONNECTED
  else ret tt.

(** [private ensureAuthenticated()]. *)
Definition ensureAuthenticated : M unit :=
  do w <- get;
  if negb (truthy (authenticatedWallet w))
  then throw NOT_AUTHENTICATED
  else ret tt.

(** [subscribePrices(asset?)]: [asset ? { asset } : {}]. *)
Definition subscribePrices (asset : option string) : M unit :=
  ensureConnected;;
  socket_emit "subscribe:price"
    (match asset with
     | Some a => if String.eqb a "" then VObj [] else VObj [("asset", VStr a)]
     | None => VObj []
     end) None.

(** [getPrices(assets)]. *)
Definition getPrices (assets : list string) : M unit :=
  ensureConnected;;
  socket_emit "get:prices" (VObj [("assets", VArr (map VStr assets))]) None.

(** [subscribeOrderBook(asset)]. *)
Definition subscribeOrderBook (asset : string) : M unit :=
  ensureConnected;;
  socket_emit "subscribe:orderbook" (VObj [("asset", VStr asset)]) None.

(** [subscribeTrades(asset)]. *)
Definition subscribeTrades (asset : string) : M unit :=
  ensureConnected;;
  socket_emit "subscribe:trades" (VObj [("asset", VStr asset)]) None.

(** [subscribeCandles(asset, interval)]. *)
Definition subscribeCandles (asset interval : string) : M unit :=
  ensureConnected;;
  socket_emit "subscribe:candle"
    (VObj [("coin", VStr asset); ("interval", VStr interval)]) None.

(** [unsubscribe(room)]. *)
Definition unsubscribe (room : string) : M unit :=
  ensureConnected;;
  socket_emit "unsubscribe" (VObj [("room", VStr room)]) None.

(** [async authenticate(wallet)]. *)
Definition authenticate (wallet : string) : M nat :=
  async (
    ensureConnected;;
    do p <- new_promise;
    do timeout <- setTimeout (TAuthTimeout p) 10000%Q;
    socket_once "authenticated" (OnAuthenticated timeout p);;
    socket_once "auth:error" (OnAuthError timeout p);;
    socket_emit "authenticate" (VObj [("wallet", VStr wallet)]) None;;
    ret p).

(** [async getBalance()]: the request carries an acknowledgement callback
    that resolves the promise. *)
Definition getBalance : M nat :=
  async (
    ensureConnected;;
    ensureAuthenticated;;
    do p <- new_promise;
    socket_emit "get:userBalance" VUndefined (Some p);;
    ret p).

(** [Set.add]: a handler already in the set is not added again. *)
Definition set_add (h : Handler) (hs : list Handler) : list Handler :=
  if existsb (fun h' => Nat.eqb (h_id h') (h_id h)) hs then hs else hs ++ [h].

(** [Set.delete]. *)
Definition set_delete (id : nat) (hs : list Handler) : list Handler :=
  filter (fun h' => h_id h' ≠ id) hs.

(** [on(event, handler)]. *)
Definition on (event : string) (handler : Handler) : M unit :=
  modify (fun w =>
    set_eventHandlers
      (<[event := set_add handler (default [] (eventHandlers w !! event))]>
         (eventHandlers w)) w).

(** [off(event, handler)]. *)
Definition off (event : string) (handler : nat) : M unit :=
  modify (fun w =>
    set_eventHandlers (alter (set_delete handler) event (eventHandlers w)) w).

(** [removeAllListeners(event?)]: [if (event)] is false for a missing or
    empty event name. *)
Definition removeAllListeners (event : option string) : M unit :=
  modify (fun w =>
    match event with
    | Some e =>
        if String.eqb e ""
        then set_eventHandlers ∅ w
        else set_eventHandlers (delete e (eventHandlers w)) w
    | None => set_eventHandlers ∅ w
    end).

(** What a timer callback does when it fires. *)
Definition run_timer (cb : TimerCallback) : M unit :=
  match cb with
  | TReconnect => do _ <- connect; ret tt
  | TAuthTimeout p => reject p "Authentication timeout"
  end.

(** ** Runs: calls, transport events and timers

    An action is a method call by the caller or something the environment
    does.  An environment action that cannot happen in the current world (a
    message on a socket that is not connected, a timer that is not pending)
    leaves the world as it is. *)
Inductive Action : Type :=
| CallConnect
| CallDisconnect
| CallSubscribePrices (asset : option string)
| CallGetPrices (assets : list string)
| CallSubscribeOrderBook (asset : string)
| CallSubscribeTrades (asset : string)
| CallSubscribeCandles (asset interval : string)
| CallUnsubscribe (room : string)
| CallAuthenticate (wallet : string)
| CallGetBalance
| CallOn (event : string) (handler : Handler)
| CallOff (event : string) (handler : nat)
| CallRemoveAllListeners (event : option string)
| TransportOpen (sid : nat)                           (* the socket connects *)
| TransportConnectError (sid : nat) (message : string) (* "connect_error" *)
| TransportDisconnect (sid : nat) (reason : string)    (* "disconnect" *)
| ServerMessage (sid : nat) (event : string) (data : value)
| ServerAck (sid : nat) (promise : nat) (data : value)
| TimerFire (id : nat).

(** How a call ends for its caller. *)
Inductive Outcome : Type :=
| Returned
| Threw (e : string)
| Promise (p : nat).

Definition sync_call (c : M unit) : World -> World * Outcome :=
  fun w =>
    match c w with
    | (w', Ok _) => (w', Returned)
    | (w', Throw e) => (w', Threw e)
    end.

Definition async_call (c : M nat) : World -> World * Outcome :=
  fun w =>
    match c w with
    | (w', Ok p) => (w', Promise p)
    | (w', Throw e) => (w', Threw e)
    end.

(** Names socket.io reserves for transport events; the server cannot send
    them as messages. *)
Definition reserved_event (event : string) : bool :=
  bool_decide (event ∈ ["connect"; "connect_error"; "disconnect";
                        "disconnecting"; "newListener"; "removeListener"]).

Definition status_of (sid : nat) (w : World) : option SockStatus :=
  s_status <$> sockets w !! sid.

Definition acks_of (sid : nat) (w : World) : list nat :=
  match sockets w !! sid with
  | Some s => omap m_ack (s_sent s)
  | None => []
  end.

Definition environment (a : Action) : M unit :=
  do w <- get;
  match a with
  | TransportOpen sid =>
      if bool_decide (status_of sid w = Some SOpening)
      then update_socket sid (set_status SConnected)
      else ret tt
  | TransportConnectError sid msg =>
      if bool_decide (status_of sid w = Some SOpening)
      then update_socket sid (set_status SClosed);;
           socket_dispatch sid "connect_error" (VObj [("message", VStr msg)])
      else ret tt
  | TransportDisconnect sid reason =>
      if bool_decide (status_of sid w = Some SConnected)
      then update_socket sid (set_status SClosed);;
           socket_dispatch sid "disconnect" (VStr reason)
      else ret tt
  | ServerMessage sid event data =>
      if bool_decide (status_of sid w = Some SConnected) && negb (reserved_event event)
      then socket_dispatch sid event data
      else ret tt
  | ServerAck sid p data =>
      if bool_decide (status_of sid w = Some SConnected) && bool_decide (p ∈ acks_of sid w)
      then resolve p data
      else ret tt
  | TimerFire id =>
      match timers w !! id with
      | Some t =>
          if t_pending t
          then clearTimeout id;; run_timer (t_callback t)
          else ret tt
      | None => ret tt
      end
  | _ => ret tt
  end.

Definition step (a : Action) : World -> World * Outcome :=
  match a with
  | CallConnect => async_call connect
  | CallDisconnect => sync_call disconnect
  | CallSubscribePrices asset => sync_call (subscribePrices asset)
  | CallGetPrices assets => sync_call (getPrices assets)
  | CallSubscribeOrderBook asset => sync_call (subscribeOrderBook asset)
  | CallSubscribeTrades asset => sync_call (subscribeTrades asset)
  | CallSubscribeCandles asset interval => sync_call (subscribeCandles asset interval)
  | CallUnsubscribe room => sync_call (unsubscribe room)
  | CallAuthenticate wallet => async_call (authenticate wallet)
  | CallGetBalance => async_call getBalance
  | CallOn event handler => sync_call (on event handler)
  | CallOff event handler => sync_call (off event handler)
  | CallRemoveAllListeners event => sync_call (removeAllListeners event)
  | _ => sync_call (environment a)
  end.

Definition exec (a : Action) (w : World) : World := fst (step a w).

Definition run (acts : list Action) (w : World) : World :=
  fold_left (fun w a => exec a w) acts w.

(** The worlds a client can be in: those a run reaches from a fresh one. *)
Definition reachable (w : World) : Prop :=
  exists (o : ClientOptions) (acts : list Action), w = run acts (new_client o).

(** ** What an emission delivers *)

(** The observations made while one handler is served. *)
Definition delivery (event : string) (data : value) (h : Handler) : list Obs :=
  Invoked event (h_id h) data ::
  match h_call h data with
  | Some e => [ConsoleError event e]
  | None => []
  end.

Definition handlers_of (event : string) (w : World) : list Handler :=
  default [] (eventHandlers w !! event).

(** Everything one call [this.emit(event, data)] adds to the trace. *)
Definition emitted (event : string) (data : value) (w : World) : list Obs :=
  Emit event data :: flat_map (delivery event data) (handlers_of event w).

Definition log_emit (event : string) (data : value) (w : World) : World :=
  set_trace (trace w ++ emitted event data w) w.

(** The emissions in a trace, without the deliveries. *)
Definition emissions (t : list Obs) : list (string * value) :=
  omap (fun o => match o with Emit e d => Some (e, d) | _ => None end) t.

(** The handler invocations in a trace. *)
Definition invocations (t : list Obs) : list (string * nat * value) :=
  omap (fun o => match o with Invoked e h d => Some (e, h, d) | _ => None end) t.

(** ** Closed forms of the reconnection policy and of the handlers *)

Definition MAX_RECONNECT_ERROR : value :=
  VObj [("code", VStr "MAX_RECONNECT_ATTEMPTS");
        ("message", VStr "Maximum reconnection attempts reached")].

(** The branch of [scheduleReconnect] taken when the attempts are used up. *)
Definition attempts_exhausted (w : World) : World :=
  log_emit "error" MAX_RECONNECT_ERROR
    (log_emit "stateChange" (VStr "error") (set_state Error w)).

(** The delay [scheduleReconnect] computes once the counter holds [k]. *)
Definition backoff_delay (base : Q) (k : Z) : Q := (base * pow_1_5 (k - 1))%Q.

(** The branch of [scheduleReconnect] that schedules attempt number
    [reconnectAttempts w + 1]. *)
Definition schedule_next (w : World) : World :=
  let k := (reconnectAttempts w + 1)%Z in
  let w1 := log_emit "stateChange" (VStr "reconnecting")
              (set_state Reconnecting (set_reconnectAttempts k w)) in
  let w2 := log_emit "reconnecting"
              (VObj [("attempt", VNum (inject_Z k));
                     ("maxAttempts", VNum (inject_Z (maxReconnectAttempts (options w))))])
              w1 in
  set_reconnectTimer (Some (length (timers w)))
    (set_timers
       (timers w ++ [mkTimer TReconnect (backoff_delay (reconnectDelay (options w)) k) true])
       w2).

Definition connection_error_event (error : value) : value :=
  VObj [("code", VStr "CONNECTION_ERROR"); ("message", field "message" error)].

(** ** Frames: what each operation leaves alone *)

(** The transport side of a world: the sockets and the reference the client
    holds.  Handlers, the policy and the timers never touch it. *)
Definition same_transport (w w' : World) : Prop :=
  sockets w' = sockets w /\ socket w' = socket w /\
  options w' = options w /\ eventHandlers w' = eventHandlers w.

(** What a listener does to the state machine and to the identity. *)
Definition listener_effect (body : ListenerBody) (data : value) (w w' : World) : Prop :=
  match body with
  | OnConnected _ =>
      state w' = Connected /\ reconnectAttempts w' = 0%Z /\
      authenticatedWallet w' = authenticatedWallet w
  | OnConnectError _ =>
      (state w' = Error \/ state w' = Reconnecting) /\
      authenticatedWallet w' = authenticatedWallet w
  | OnDisconnect =>
      (state w' = Disconnected \/ state w' = Error \/ state w' = Reconnecting) /\
      authenticatedWallet w' = authenticatedWallet w
  | OnAuthenticated _ _ =>
      state w' = state w /\ authenticatedWallet w' = field "wallet" data /\
      trace w' = trace w ++ emitted "authenticated" data w
  | _ =>
      state w' = state w /\ authenticatedWallet w' = authenticatedWallet w
  end.

Ltac world_fields :=
  cbn [log_emit set_trace set_state set_promises set_sockets set_socket
       set_reconnectAttempts set_reconnectTimer set_authenticatedWallet
       set_eventHandlers set_timers
       socket options state reconnectAttempts reconnectTimer
       authenticatedWallet eventHandlers sockets timers promises trace fst snd].

(** ** Well-formed sockets

    A socket created by [connect] carries the four lifecycle listeners and
    the data listeners, in the order they are installed, followed by the
    one-shot listeners that calls of [authenticate] added since. *)
Definition connect_listeners (p : nat) : list Listener :=
  [ mkListener "connected" false (OnConnected p);
    mkListener "connect_error" false (OnConnectError p);
    mkListener "disconnect" false OnDisconnect;
    mkListener "error" false OnServerError ]
  ++ map (fun '(event, body) => mkListener event false body) data_listeners.

Definition auth_listener (l : Listener) : bool :=
  l_once l &&
  match l_body l with
  | OnAuthenticated _ _ => String.eqb (l_event l) "authenticated"
  | OnAuthError _ _ => String.eqb (l_event l) "auth:error"
  | _ => false
  end.

Definition sock_wf (s : Sock) : Prop :=
  exists p auths,
    s_listeners s = connect_listeners p ++ auths /\
    forallb auth_listener auths = true.

Definition install (ls : list Listener) (s : Sock) : Sock :=
  mkSock (s_url s) (s_status s) (s_listeners s ++ ls) (s_sent s).

(** The world [connect] produces when it gets past its guard. *)
Definition open_transport (w : World) : World :=
  let w1 := log_emit "stateChange" (VStr "connecting") (set_state Connecting w) in
  set_sockets
    (sockets w ++ [mkSock (url (options w)) SOpening
                     (connect_listeners (length (promises w))) []])
    (set_socket (Some (length (sockets w)))
       (set_promises (promises w ++ [Pending]) w1)).

(** A change of a socket that keeps its transport status and its
    well-formedness: a message written to it, a listener added by
    [authenticate], a one-shot listener removed when it runs. *)
Definition sock_step (s s' : Sock) : Prop :=
  s_status s' = s_status s /\ (sock_wf s -> sock_wf s').

(** The two closures that react to the transport going away are installed
    for the reserved events "connect_error" and "disconnect" only. *)
Definition transport_body (b : ListenerBody) : bool :=
  match b with
  | OnConnectError _ | OnDisconnect => true
  | _ => false
  end.

Definition event_fits_body (l : Listener) : bool :=
  match l_body l with
  | OnConnectError _ => String.eqb (l_event l) "connect_error"
  | OnDisconnect => String.eqb (l_event l) "disconnect"
  | _ => true
  end.

(** ** Closed forms of the caller-facing methods *)

Definition not_connected (w : World) : bool :=
  bool_decide (socket w = None) || negb (bool_decide (state w = Connected)).

(** [this.socket!.emit(...)] once the guard has passed. *)
Definition send (m : Sent) (w : World) : World :=
  match socket w with
  | Some sid => set_sockets (alter (add_sent m) sid (sockets w)) w
  | None => w
  end.

(** The world [authenticate] produces once the guard has passed: a pending
    promise, the 10 second timer, the two one-shot listeners and the
    request. *)
Definition auth_started (wallet : string) (sid : nat) (w : World) : World :=
  let p := length (promises w) in
  let t := length (timers w) in
  set_sockets
    (alter (fun s =>
        add_sent (mkSent "authenticate" (VObj [("wallet", VStr wallet)]) None)
          (install [mkListener "authenticated" true (OnAuthenticated t p);
                    mkListener "auth:error" true (OnAuthError t p)] s))
       sid (sockets w))
    (set_timers (timers w ++ [mkTimer (TAuthTimeout p) 10000%Q true])
       (set_promises (promises w ++ [Pending]) w)).

Definition balance_requested (sid : nat) (w : World) : World :=
  set_sockets
    (alter (add_sent (mkSent "get:userBalance" VUndefined (Some (length (promises w)))))
       sid (sockets w))
    (set_promises (promises w ++ [Pending]) w).

(** [disconnect()], first step: the pending reconnect timer is cancelled. *)
Definition clear_reconnect (w : World) : World :=
  match reconnectTimer w with
  | Some t => set_reconnectTimer None (set_timers (alter cancel_timer t (timers w)) w)
  | None => w
  end.

(** The world [disconnect()] leaves once timer and socket are dealt with:
    the state is set and announced, the identity cleared. *)
Definition settle_disconnected (w : World) : World :=
  set_authenticatedWallet VNull
    (log_emit "stateChange" (VStr "disconnected") (set_state Disconnected w)).

(** The sockets as [disconnect()] leaves them, up to the one-shot listeners
    that ran: the current one is closed. *)
Definition torn_down (w : World) : list Sock :=
  match socket w with
  | Some sid => alter (set_status SClosed) sid (sockets w)
  | None => sockets w
  end.

Definition CLIENT_DISCONNECT : value := VStr "io client disconnect".

(** On a well-formed socket, [socket.disconnect()] closes it and, when it
    was connected, runs [handleDisconnect("io client disconnect")], which
    announces the disconnection and schedules nothing. *)
Definition closed_by_client (sid : nat) (s : Sock) (w : World) : World :=
  let wc := set_sockets (alter (set_status SClosed) sid (sockets w)) w in
  if bool_decide (s_status s = SConnected)
  then log_emit "disconnected" (VObj [("reason", CLIENT_DISCONNECT)])
         (log_emit "stateChange" (VStr "disconnected") (set_state Disconnected wc))
  else wc.

(** ** The invariant of reachable worlds *)

Definition live (s : Sock) : Prop := s_status s <> SClosed.

#[global] Instance live_dec s : Decision (live s).
Proof. unfold live. apply _. Defined.

Record Inv (w : World) : Prop := mkInv {
  (** a socket that is not closed is the one the client references, and the
      client is then connecting or connected *)
  inv_live : forall i s, sockets w !! i = Some s -> live s ->
             socket w = Some i /\ (state w = Connecting \/ state w = Connected);
  (** every socket carries the listeners [connect] and [authenticate] installed *)
  inv_wf : Forall sock_wf (sockets w);
  (** in state connected the referenced socket is connected *)
  inv_connected : state w = Connected ->
             exists i s, socket w = Some i /\ sockets w !! i = Some s /\
                         s_status s = SConnected
}.

(** ** Vocabulary of the claims *)

(** How a call that failed with error [e] looks to its caller in world [w]:
    a synchronous method threw [e]; an [async] method returned a promise
    that is already rejected with [e]. *)
Definition failed_with (e : string) (w : World) (out : Outcome) : Prop :=
  match out with
  | Threw e' => e' = e
  | Promise p => promises w !! p = Some (Rejected e)
  | Returned => False
  end.

(** A connected-only method call, with its arguments. *)
Definition connected_only (a : Action) : bool :=
  match a with
  | CallSubscribePrices _ | CallGetPrices _ | CallSubscribeOrderBook _
  | CallSubscribeTrades _ | CallSubscribeCandles _ _ | CallUnsubscribe _
  | CallAuthenticate _ | CallGetBalance => true
  | _ => false
  end.

(** The delay as the specification writes it: baseDelay × 1.5^(k−1). *)
Definition spec_backoff (baseDelay : Q) (k : Z) : Q :=
  (baseDelay * 1.5 ^ (k - 1))%Q.

(** A rational that an IEEE double holds exactly: an integer below 2^53 in
    absolute value over a power of two (exponents this small are always in
    range). *)
Definition double_exact (q : Q) : Prop :=
  exists (m : Z) (e : nat),
    (Z.abs m < 2 ^ 53)%Z /\ (q == inject_Z m / inject_Z (2 ^ Z.of_nat e))%Q.

Definition reconnecting_event (k max : Z) : value :=
  VObj [("attempt", VNum (inject_Z k)); ("maxAttempts", VNum (inject_Z max))].

(** No timer that would call [connect()] is waiting to fire. *)
Definition no_pending_reconnect (w : World) : Prop :=
  forall i t, timers w !! i = Some t -> t_callback t = TReconnect ->
              t_pending t = false.

(** The calls by which the caller itself restarts or stops the client. *)
Definition caller_reset (a : Action) : bool :=
  match a with
  | CallConnect | CallDisconnect => true
  | _ => false
  end.

(** The rest state after exhaustion: state error, nothing that could leave
    it on its own. *)
Definition at_rest (w : World) : Prop :=
  Inv w /\ state w = Error /\ no_pending_reconnect w.

(** The scenario of the specification: two attempts allowed, three
    connection failures in a row. *)
Definition two_attempts : ClientOptions :=
  mkClientOptions None None None (Some 100%Q) (Some 2%Z) None.

Definition exhausting_run : list Action :=
  [CallConnect; TransportConnectError 0 "refused";
   TimerFire 0; TransportConnectError 1 "refused";
   TimerFire 1; TransportConnectError 2 "refused"].

Definition ACK : value := VObj [("clientId", VStr "abc")].

Definition WALLET : value := VObj [("wallet", VStr "0xabc")].

(** A run in which the client connects and a handshake succeeds. *)
Definition authenticated_run : list Action :=
  [CallConnect; TransportOpen 0; ServerMessage 0 "connected" ACK;
   CallAuthenticate "0xabc"; ServerMessage 0 "authenticated" WALLET].


(** ** Vocabulary of the further properties *)

(** The attempt counter stays between 0 and the configured maximum. *)
Definition policy_ok (w : World) : Prop :=
  (0 <= reconnectAttempts w)%Z /\
  (reconnectAttempts w <= Z.max 0 (maxReconnectAttempts (options w)))%Z.

(** The identities of the handlers an emission of [event] calls, in order. *)
Definition handler_ids (event : string) (w : World) : list nat :=
  map h_id (handlers_of event w).

(** No handler is held twice for one event: the sets of the registry are
    sets. *)
Definition registry_ok (w : World) : Prop :=
  forall event hs, eventHandlers w !! event = Some hs -> NoDup (map h_id hs).

(** The message names for which some listener is ever installed on a
    socket. *)
Definition known_events : list string :=
  ["connected"; "connect_error"; "disconnect"; "error";
   "authenticated"; "auth:error"] ++ map fst data_listeners.

(** The configuration is [opts] and the counter is in its bounds. *)
Definition Policy (opts : InternalOptions) (w : World) : Prop :=
  options w = opts /\ policy_ok w.

Definition connection_error_of (message : string) : value :=
  connection_error_event (VObj [("message", VStr message)]).

Definition IO_CLIENT_DISCONNECT : string := "io client disconnect".

(** [{ autoReconnect: false }]. *)
Definition no_reconnect : ClientOptions :=
  mkClientOptions None None (Some false) None None None.

Definition disconnected_event (reason : string) : value :=
  VObj [("reason", VStr reason)].

(** The timers as [disconnect()] leaves them: the one held in
    [reconnectTimer] is cancelled. *)
Definition timers_after_disconnect (w : World) : list Timer :=
  match reconnectTimer w with
  | Some t => alter cancel_timer t (timers w)
  | None => timers w
  end.

(** The socket the client references is connected at the transport level. *)
Definition transport_connected (w : World) : bool :=
  match socket w with
  | Some sid => bool_decide (status_of sid w = Some SConnected)
  | None => false
  end.

(** The request each fire-and-forget method writes to the socket. *)
Definition request_of (a : Action) : option Sent :=
  match a with
  | CallSubscribePrices (Some asset) =>
      Some (mkSent "subscribe:price"
              (if String.eqb asset "" then VObj [] else VObj [("asset", VStr asset)]) None)
  | CallSubscribePrices None => Some (mkSent "subscribe:price" (VObj []) None)
  | CallGetPrices assets =>
      Some (mkSent "get:prices" (VObj [("assets", VArr (map VStr assets))]) None)
  | CallSubscribeOrderBook asset =>
      Some (mkSent "subscribe:orderbook" (VObj [("asset", VStr asset)]) None)
  | CallSubscribeTrades asset =>
      Some (mkSent "subscribe:trades" (VObj [("asset", VStr asset)]) None)
  | CallSubscribeCandles asset interval =>
      Some (mkSent "subscribe:candle"
              (VObj [("coin", VStr asset); ("interval", VStr interval)]) None)
  | CallUnsubscribe room =>
      Some (mkSent "unsubscribe" (VObj [("room", VStr room)]) None)
  | _ => None
  end.


(** The message names [connect()] installs a listener for. *)
Definition connect_events : list string := map l_event (connect_listeners 0).

(** The message name each lifecycle closure is written for in the source;
    the relaying closures of [setupDataListeners] are shared by many names. *)
Definition closure_event (b : ListenerBody) : option string :=
  match b with
  | OnConnected _ => Some "connected"
  | OnConnectError _ => Some "connect_error"
  | OnDisconnect => Some "disconnect"
  | OnServerError => Some "error"
  | OnAuthenticated _ _ => Some "authenticated"
  | OnAuthError _ _ => Some "auth:error"
  | Relay _ | RelayBalance => None
  end.

(** What the delivery of one message may do to the connection state and to
    the identity, by message name. *)
Definition delivery_post (event : string) (data : value) (w w' : World) : Prop :=
  (state w' = state w \/
   (event = "connected" /\ state w' = Connected) \/
   (event = "connect_error" /\ (state w' = Error \/ state w' = Reconnecting)) \/
   (event = "disconnect" /\
    (state w' = Disconnected \/ state w' = Error \/ state w' = Reconnecting))) /\
  (authenticatedWallet w' = authenticatedWallet w \/
   (event = "authenticated" /\ authenticatedWallet w' = field "wallet" data)).

(** The state changes an action may cause. *)
Definition transition_of (a : Action) (s' : ConnectionState) : Prop :=
  match a with
  | CallConnect | TimerFire _ => s' = Connecting
  | CallDisconnect => s' = Disconnected
  | ServerMessage _ event _ => event = "connected" /\ s' = Connected
  | TransportConnectError _ _ => s' = Error \/ s' = Reconnecting
  | TransportDisconnect _ _ => s' = Disconnected \/ s' = Error \/ s' = Reconnecting
  | _ => False
  end.

(** * Proofs *)

(** ** Basic facts about the monad and [emit] *)

Lemma forEach_handlers_eq event data hs w :
  forEach (fun h =>
      try_catch (call_handler event h data)
                (fun e => observe (ConsoleError event e))) hs w
  = (set_trace (trace w ++ flat_map (delivery event data) hs) w, Ok tt).
Proof.
  revert w. induction hs as [|h hs IH]; intros w.
  - destruct w; cbn. by rewrite app_nil_r.
  - cbn [forEach]. unfold bind at 1, try_catch at 1, call_handler at 1.
    unfold bind at 1, observe at 1, modify at 1.
    destruct (h_call h data) as [e|] eqn:Hc; cbn [throw ret observe modify];
      rewrite IH; destruct w; cbn; unfold delivery at 2; rewrite Hc;
      by rewrite <- !app_assoc.
Qed.

Lemma emit_eq event data w :
  emit event data w = (log_emit event data w, Ok tt).
Proof.
  unfold emit, log_emit, emitted, handlers_of.
  unfold bind, observe, modify, get.
  destruct w as [so op st ra rt aw eh ss ts ps tr]; cbn.
  destruct (eh !! event) as [hs|] eqn:He; cbn.
  - rewrite forEach_handlers_eq. cbn. by rewrite <- app_assoc.
  - done.
Qed.

Lemma setState_eq s w :
  setState s w = (log_emit "stateChange" (VStr (state_name s)) (set_state s w), Ok tt).
Proof. unfold setState, bind, modify. by rewrite emit_eq. Qed.

Lemma scheduleReconnect_eq w :
  scheduleReconnect w =
  if (maxReconnectAttempts (options w) <=? reconnectAttempts w)%Z
  then (attempts_exhausted w, Ok tt)
  else (schedule_next w, Ok tt).
Proof.
  unfold scheduleReconnect. unfold bind at 1, get at 1.
  destruct (maxReconnectAttempts (options w) <=? reconnectAttempts w)%Z.
  - unfold bind. rewrite setState_eq, emit_eq. reflexivity.
  - unfold bind, modify, get, setTimeout. rewrite setState_eq.
    unfold bind, modify, get. rewrite emit_eq.
    destruct w; reflexivity.
Qed.

Lemma handleConnectionError_eq error w :
  handleConnectionError error w =
  let w1 := log_emit "error" (connection_error_event error) w in
  if autoReconnect (options w)
  then scheduleReconnect w1
  else (log_emit "stateChange" (VStr "error") (set_state Error w1), Ok tt).
Proof.
  unfold handleConnectionError, bind, get. rewrite emit_eq.
  destruct w as [so op st ra rt aw eh ss ts ps tr]; cbn [log_emit options set_trace].
  destruct (autoReconnect op); [reflexivity|].
  by rewrite setState_eq.
Qed.

Lemma handleDisconnect_eq reason w :
  handleDisconnect reason w =
  let w1 := log_emit "disconnected" (VObj [("reason", reason)])
              (log_emit "stateChange" (VStr "disconnected") (set_state Disconnected w)) in
  if autoReconnect (options w) && negb (is_string "io client disconnect" reason)
  then scheduleReconnect w1
  else (w1, Ok tt).
Proof.
  unfold handleDisconnect, bind, get. rewrite setState_eq, emit_eq.
  destruct w as [so op st ra rt aw eh ss ts ps tr]; cbn [log_emit options set_trace set_state].
  by destruct (autoReconnect op && _).
Qed.

Lemma scheduleReconnect_spec w :
  let w' := fst (scheduleReconnect w) in
  snd (scheduleReconnect w) = Ok tt /\
  same_transport w w' /\
  (state w' = Error \/ state w' = Reconnecting) /\
  authenticatedWallet w' = authenticatedWallet w /\
  promises w' = promises w.
Proof.
  rewrite scheduleReconnect_eq.
  destruct (maxReconnectAttempts (options w) <=? reconnectAttempts w)%Z;
    cbn; repeat split; auto.
Qed.

Lemma handleConnectionError_spec error w :
  let w' := fst (handleConnectionError error w) in
  snd (handleConnectionError error w) = Ok tt /\
  same_transport w w' /\
  (state w' = Error \/ state w' = Reconnecting) /\
  authenticatedWallet w' = authenticatedWallet w /\
  promises w' = promises w.
Proof.
  rewrite handleConnectionError_eq. cbn zeta.
  destruct (autoReconnect (options w)).
  - pose proof (scheduleReconnect_spec
      (log_emit "error" (connection_error_event error) w)) as (H1 & H2 & H3 & H4 & H5).
    repeat split; try tauto; try apply H2; congruence.
  - cbn. repeat split; auto.
Qed.

Lemma handleDisconnect_spec reason w :
  let w' := fst (handleDisconnect reason w) in
  snd (handleDisconnect reason w) = Ok tt /\
  same_transport w w' /\
  (state w' = Disconnected \/ state w' = Error \/ state w' = Reconnecting) /\
  authenticatedWallet w' = authenticatedWallet w /\
  promises w' = promises w.
Proof.
  rewrite handleDisconnect_eq. cbn zeta.
  destruct (autoReconnect (options w) && negb (is_string "io client disconnect" reason)).
  - match goal with |- context [scheduleReconnect ?x] =>
      pose proof (scheduleReconnect_spec x) as (H1 & H2 & H3 & H4 & H5) end.
    repeat split; try tauto; try apply H2; congruence.
  - cbn. repeat split; auto.
Qed.

Lemma settle_same p s w : same_transport w (fst (settle p s w)).
Proof.
  unfold settle, modify; cbn.
  destruct (promises w !! p) as [[]|]; by repeat split.
Qed.

Lemma settle_fields p s w :
  let w' := fst (settle p s w) in
  state w' = state w /\ authenticatedWallet w' = authenticatedWallet w /\
  reconnectAttempts w' = reconnectAttempts w /\ trace w' = trace w /\
  timers w' = timers w /\ reconnectTimer w' = reconnectTimer w.
Proof.
  unfold settle, modify; cbn.
  destruct (promises w !! p) as [[]|]; by repeat split.
Qed.

Lemma run_listener_spec body data w :
  let w' := fst (run_listener body data w) in
  snd (run_listener body data w) = Ok tt /\
  same_transport w w' /\
  listener_effect body data w w'.
Proof.
  unfold same_transport.
  destruct body as [p|p| | |logical| |t p|t p]; cbn [run_listener listener_effect].
  - unfold bind, modify, resolve, settle, modify. rewrite setState_eq, emit_eq.
    world_fields. destruct (promises w !! p) as [[]|]; by repeat split.
  - unfold bind, get. pose proof (handleConnectionError_spec data w) as (H1&H2&H3&H4&H5).
    destruct (handleConnectionError data w) as [w1 r]; cbn [fst snd] in *. subst r.
    destruct (bool_decide (state w1 = Connecting)) eqn:Hb.
    + apply bool_decide_eq_true in Hb. destruct H3; congruence.
    + cbn. repeat split; try apply H2; auto.
  - pose proof (handleDisconnect_spec data w) as (H1&H2&H3&H4&H5).
    repeat split; try apply H2; auto.
  - rewrite emit_eq. by repeat split.
  - rewrite emit_eq. by repeat split.
  - rewrite emit_eq. by repeat split.
  - unfold bind, modify, resolve, settle, clearTimeout, modify. rewrite emit_eq.
    world_fields. destruct (promises w !! p) as [[]|]; by repeat split.
  - unfold bind, modify, reject, settle, clearTimeout, modify.
    world_fields. destruct (promises w !! p) as [[]|]; by repeat split.
Qed.

Lemma alter_snoc {A} (f : A -> A) (l : list A) (x : A) :
  alter f (length l) (l ++ [x]) = l ++ [f x].
Proof.
  replace (length l) with (length l + 0) by lia.
  by rewrite alter_app_r.
Qed.

Lemma alter_None {A} (f : A -> A) (i : nat) (l : list A) :
  l !! i = None -> alter f i l = l.
Proof.
  revert i. induction l as [|x l IH]; intros [|i] Hl; cbn in *; try done.
  f_equal. by apply IH.
Qed.

Lemma forEach_socket_on sid ls w :
  socket w = Some sid ->
  forEach (fun '(event, body) => socket_on event body) ls w =
  (set_sockets
     (alter (install (map (fun '(event, body) => mkListener event false body) ls))
            sid (sockets w)) w, Ok tt).
Proof.
  revert w. induction ls as [|[e b] ls IH]; intros w Hs.
  - cbn [forEach map]. unfold ret. rewrite list_alter_id; [by destruct w|].
    intros [u st l m]; unfold install; cbn. by rewrite app_nil_r.
  - cbn [forEach]. unfold bind at 1, socket_on at 1, with_socket, bind, get.
    rewrite Hs. unfold update_socket, modify.
    rewrite IH by (by destruct w).
    destruct w; world_fields. rewrite list_alter_alter_eq.
    assert (forall f g : Sock -> Sock, (forall x, f x = g x) ->
            alter f sid sockets0 = alter g sid sockets0) as Hext.
    { intros f g Hfg. by apply list_alter_ext. }
    rewrite (Hext _ (install (map (λ '(event, body), mkListener event false body)
                                  ((e, b) :: ls)))); [done|].
    intros [u st l m]; unfold install, add_listener; cbn.
    by rewrite <- app_assoc.
Qed.

Lemma connect_eq w :
  connect w =
  if bool_decide (state w = Connected) || bool_decide (state w = Connecting)
  then (set_promises (promises w ++ [Resolved VUndefined]) w, Ok (length (promises w)))
  else (open_transport w, Ok (length (promises w))).
Proof.
  unfold connect, async, try_catch. unfold bind at 1, get at 1.
  destruct (bool_decide (state w = Connected) || bool_decide (state w = Connecting)).
  - reflexivity.
  - unfold bind at 1. rewrite setState_eq.
    unfold bind, new_promise, io, get, modify, socket_on, with_socket, bind, get,
      update_socket, modify, setupDataListeners, bind, get, ret.
    destruct w as [so op st ra rt aw eh ss ts ps tr].
    cbn [log_emit set_trace set_state set_promises set_sockets set_socket
         socket options state reconnectAttempts reconnectTimer
         authenticatedWallet eventHandlers sockets timers promises trace fst snd].
    rewrite (forEach_socket_on (length ss)) by reflexivity.
    cbn [set_sockets socket options state reconnectAttempts reconnectTimer
         authenticatedWallet eventHandlers sockets timers promises trace].
    unfold open_transport.
    cbn [log_emit set_trace set_state set_promises set_sockets set_socket
         socket options state reconnectAttempts reconnectTimer
         authenticatedWallet eventHandlers sockets timers promises trace fst snd].
    rewrite !list_alter_alter_eq, alter_snoc. reflexivity.
Qed.

Lemma connect_opens w :
  state w <> Connected -> state w <> Connecting ->
  connect w = (open_transport w, Ok (length (promises w))).
Proof.
  intros H1 H2. rewrite connect_eq.
  by rewrite (bool_decide_eq_false_2 _ H1), (bool_decide_eq_false_2 _ H2).
Qed.

(** ** Delivery of a transport event to the listeners *)

Lemma forEach_inv {A} (P : World -> Prop) (f : A -> M unit) (l : list A) :
  (forall x w, x ∈ l -> P w -> P (fst (f x w)) /\ snd (f x w) = Ok tt) ->
  forall w, P w -> P (fst (forEach f l w)) /\ snd (forEach f l w) = Ok tt.
Proof.
  induction l as [|x l IH]; intros Hf w Hw.
  - by split.
  - cbn [forEach]. unfold bind.
    destruct (Hf x w) as [H1 H2]; [by left|done|].
    destruct (f x w) as [w1 r]; cbn [fst snd] in *. subst r.
    apply IH; [|done]. intros y w0 Hy. apply Hf. by right.
Qed.

Lemma deliver_to_spec sid data l w :
  let w' := fst (deliver_to sid data l w) in
  snd (deliver_to sid data l w) = Ok tt /\
  socket w' = socket w /\ options w' = options w /\
  eventHandlers w' = eventHandlers w /\
  sockets w' = (if l_once l then alter (drop_listener l) sid (sockets w) else sockets w) /\
  listener_effect (l_body l) data w w'.
Proof.
  unfold deliver_to, bind.
  set (w0 := if l_once l
             then set_sockets (alter (drop_listener l) sid (sockets w)) w else w).
  assert ((if l_once l then update_socket sid (drop_listener l) else ret tt) w
          = (w0, Ok tt)) as ->.
  { unfold w0. by destruct (l_once l). }
  pose proof (run_listener_spec (l_body l) data w0) as (H1 & (H2&H3&H4&H5) & H6).
  assert (socket w0 = socket w /\ options w0 = options w /\
          eventHandlers w0 = eventHandlers w /\ state w0 = state w /\
          authenticatedWallet w0 = authenticatedWallet w /\
          sockets w0 = (if l_once l then alter (drop_listener l) sid (sockets w)
                        else sockets w) /\ trace w0 = trace w /\
          emitted "authenticated" data w0 = emitted "authenticated" data w)
    as (E1&E2&E3&E4&E5&E6&E7&E8).
  { unfold w0. by destruct (l_once l). }
  repeat split; try congruence.
  destruct (l_body l); cbn [listener_effect] in *;
    rewrite <- ?E4, <- ?E5, <- ?E7, <- ?E8; exact H6.
Qed.

Lemma sock_step_refl s : sock_step s s.
Proof. by repeat split. Qed.

Lemma sock_step_trans s1 s2 s3 : sock_step s1 s2 -> sock_step s2 s3 -> sock_step s1 s3.
Proof. intros (?&?) (?&?). split; [congruence|auto]. Qed.

Lemma remove_first_app_r l ls1 ls2 :
  l ∉ ls1 -> remove_first l (ls1 ++ ls2) = ls1 ++ remove_first l ls2.
Proof.
  induction ls1 as [|x ls1 IH]; intros Hn; [done|].
  cbn. destruct (decide (x = l)) as [->|_].
  - exfalso. apply Hn. by left.
  - f_equal. apply IH. intros ?. apply Hn. by right.
Qed.

Lemma remove_first_auth l auths :
  forallb auth_listener auths = true ->
  forallb auth_listener (remove_first l auths) = true.
Proof.
  induction auths as [|x auths IH]; [done|].
  cbn. intros [Hx Ha]%andb_prop. destruct (decide (x = l)); [done|].
  cbn. by rewrite Hx, IH.
Qed.

Lemma connect_listeners_not_once p l :
  l ∈ connect_listeners p -> l_once l = false.
Proof.
  intros Hl.
  assert (forallb (fun l => negb (l_once l)) (connect_listeners p) = true) as Hall
    by reflexivity.
  rewrite forallb_forall in Hall. apply list_elem_of_In in Hl.
  apply Hall in Hl. by destruct (l_once l).
Qed.

Lemma drop_listener_wf l s :
  l_once l = true -> sock_wf s -> sock_wf (drop_listener l s).
Proof.
  intros Ho (p & auths & Hl & Ha). exists p, (remove_first l auths).
  split; [|by apply remove_first_auth].
  cbn. rewrite Hl. apply remove_first_app_r.
  intros Hin%connect_listeners_not_once. congruence.
Qed.

Lemma drop_listener_step l s : l_once l = true -> sock_step s (drop_listener l s).
Proof. intros Ho. split; [done|]. by apply drop_listener_wf. Qed.

Lemma alter_sock_step f sid ss :
  (forall s, sock_step s (f s)) -> Forall2 sock_step ss (alter f sid ss).
Proof.
  intros Hf. revert sid. induction ss as [|s ss IH]; intros [|sid]; cbn.
  - constructor.
  - constructor.
  - constructor; [apply Hf|]. apply Forall2_same_length_lookup_2; [done|].
    intros i x y ? ?. replace y with x by congruence. apply sock_step_refl.
  - constructor; [apply sock_step_refl|apply IH].
Qed.

Lemma Forall2_sock_step_refl ss : Forall2 sock_step ss ss.
Proof. induction ss; constructor; auto using sock_step_refl. Qed.

Lemma Forall2_sock_step_trans ss1 ss2 ss3 :
  Forall2 sock_step ss1 ss2 -> Forall2 sock_step ss2 ss3 -> Forall2 sock_step ss1 ss3.
Proof.
  intros H12. revert ss3. induction H12; intros ss3 H23; inversion H23; subst;
    constructor; eauto using sock_step_trans.
Qed.

Lemma socket_dispatch_frame sid event data w :
  let w' := fst (socket_dispatch sid event data w) in
  snd (socket_dispatch sid event data w) = Ok tt /\
  socket w' = socket w /\ options w' = options w /\
  eventHandlers w' = eventHandlers w /\
  Forall2 sock_step (sockets w) (sockets w').
Proof.
  unfold socket_dispatch, bind, get.
  destruct (sockets w !! sid) as [s|]; cbn [fst snd];
    [|repeat split; apply Forall2_sock_step_refl].
  set (P := fun w0 => socket w0 = socket w /\ options w0 = options w /\
                      eventHandlers w0 = eventHandlers w /\
                      Forall2 sock_step (sockets w) (sockets w0)).
  destruct (forEach_inv P (deliver_to sid data) (listeners_for event s)) with (w := w)
    as [(H1&H2&H3&H4) H5].
  - intros l w0 _ (H1&H2&H3&H4).
    pose proof (deliver_to_spec sid data l w0) as (D0&D1&D2&D3&D4&_).
    split; [|done]. repeat split; try congruence.
    eapply Forall2_sock_step_trans; [exact H4|]. rewrite D4.
    destruct (l_once l) eqn:Ho; [|apply Forall2_sock_step_refl].
    apply alter_sock_step. intros s0. by apply drop_listener_step.
  - repeat split. apply Forall2_sock_step_refl.
  - by repeat split.
Qed.

Lemma socket_dispatch_effect (Q : World -> Prop) sid event data w s :
  sockets w !! sid = Some s ->
  (forall w0 w1, state w1 = state w0 ->
     authenticatedWallet w1 = authenticatedWallet w0 ->
     trace w1 = trace w0 -> Q w0 -> Q w1) ->
  (forall l w0, l ∈ listeners_for event s -> Q w0 ->
     Q (fst (run_listener (l_body l) data w0))) ->
  Q w -> Q (fst (socket_dispatch sid event data w)).
Proof.
  intros Hs Hext Hrun Hw. unfold socket_dispatch, bind, get. rewrite Hs.
  apply (forEach_inv Q (deliver_to sid data) (listeners_for event s)); [|done].
  intros l w0 Hl Hw0. split; [|apply deliver_to_spec].
  unfold deliver_to, bind.
  destruct (l_once l); cbn; apply Hrun; auto.
  eapply Hext; [| | |exact Hw0]; reflexivity.
Qed.

(** ** The listeners a well-formed socket has for an event *)

Lemma auth_listeners_other event auths :
  forallb auth_listener auths = true ->
  event <> "authenticated" -> event <> "auth:error" ->
  filter (fun l => l_event l = event) auths = [].
Proof.
  intros Ha H1 H2. induction auths as [|l auths IH]; [done|].
  cbn in Ha. apply andb_prop in Ha as [Hl Ha].
  rewrite filter_cons. rewrite IH by done.
  destruct (decide (l_event l = event)) as [He|]; [|done].
  exfalso. unfold auth_listener in Hl. apply andb_prop in Hl as [_ Hl].
  destruct (l_body l); try discriminate;
    apply String.eqb_eq in Hl; congruence.
Qed.

Lemma listeners_for_wf event s p auths :
  s_listeners s = connect_listeners p ++ auths ->
  listeners_for event s =
  filter (fun l => l_event l = event) (connect_listeners p)
  ++ filter (fun l => l_event l = event) auths.
Proof. intros Hl. unfold listeners_for. by rewrite Hl, filter_app. Qed.

Lemma listeners_for_disconnect s :
  sock_wf s ->
  listeners_for "disconnect" s = [mkListener "disconnect" false OnDisconnect].
Proof.
  intros (p & auths & Hl & Ha). rewrite (listeners_for_wf _ _ _ _ Hl).
  by rewrite (auth_listeners_other _ _ Ha).
Qed.

Lemma listeners_for_connect_error s :
  sock_wf s ->
  exists p, listeners_for "connect_error" s =
            [mkListener "connect_error" false (OnConnectError p)].
Proof.
  intros (p & auths & Hl & Ha). exists p. rewrite (listeners_for_wf _ _ _ _ Hl).
  by rewrite (auth_listeners_other _ _ Ha).
Qed.

Lemma listeners_for_connected s :
  sock_wf s ->
  exists p, listeners_for "connected" s =
            [mkListener "connected" false (OnConnected p)].
Proof.
  intros (p & auths & Hl & Ha). exists p. rewrite (listeners_for_wf _ _ _ _ Hl).
  by rewrite (auth_listeners_other _ _ Ha).
Qed.

Lemma listeners_for_prices_snapshot s :
  sock_wf s ->
  listeners_for "prices:snapshot" s =
  [mkListener "prices:snapshot" false (Relay "prices")].
Proof.
  intros (p & auths & Hl & Ha). rewrite (listeners_for_wf _ _ _ _ Hl).
  by rewrite (auth_listeners_other _ _ Ha).
Qed.

Lemma listeners_for_prices_update s :
  sock_wf s ->
  listeners_for "prices:update" s =
  [mkListener "prices:update" false (Relay "prices")].
Proof.
  intros (p & auths & Hl & Ha). rewrite (listeners_for_wf _ _ _ _ Hl).
  by rewrite (auth_listeners_other _ _ Ha).
Qed.

Lemma sock_wf_event_fits s l :
  sock_wf s -> l ∈ s_listeners s -> event_fits_body l = true.
Proof.
  intros (p & auths & Hl & Ha). rewrite Hl. intros [Hin|Hin]%elem_of_app.
  - assert (forallb event_fits_body (connect_listeners p) = true) as Hall
      by reflexivity.
    rewrite forallb_forall in Hall. apply Hall. by apply list_elem_of_In.
  - rewrite forallb_forall in Ha. apply list_elem_of_In, Ha in Hin.
    unfold auth_listener in Hin. apply andb_prop in Hin as [_ Hin].
    unfold event_fits_body. by destruct (l_body l).
Qed.

Lemma listeners_for_message event s l :
  sock_wf s -> reserved_event event = false ->
  l ∈ listeners_for event s -> transport_body (l_body l) = false.
Proof.
  intros Hwf Hr Hin. unfold listeners_for in Hin.
  apply list_elem_of_filter in Hin as [He Hin].
  pose proof (sock_wf_event_fits _ _ Hwf Hin) as Hfit.
  unfold event_fits_body in Hfit.
  destruct (l_body l); try done; apply String.eqb_eq in Hfit;
    rewrite Hfit in He; subst event; done.
Qed.

Lemma not_connected_state w : state w <> Connected -> not_connected w = true.
Proof.
  intros Hs. unfold not_connected. rewrite (bool_decide_eq_false_2 _ Hs).
  apply orb_true_r.
Qed.

Lemma ensureConnected_eq w :
  ensureConnected w =
  if not_connected w then (w, Throw NOT_CONNECTED) else (w, Ok tt).
Proof. unfold ensureConnected, not_connected, bind, get. by destruct (_ || _). Qed.

Lemma guarded_emit_eq event data ack w :
  (ensureConnected;; socket_emit event data ack) w =
  if not_connected w then (w, Throw NOT_CONNECTED)
  else (send (mkSent event data ack) w, Ok tt).
Proof.
  unfold bind at 1. rewrite ensureConnected_eq.
  destruct (not_connected w) eqn:Hn; [done|].
  unfold socket_emit, with_socket, bind, get, send, not_connected in *.
  destruct (socket w); [done|]. by rewrite bool_decide_eq_true_2 in Hn.
Qed.

Lemma authenticate_eq wallet w :
  authenticate wallet w =
  if not_connected w
  then (set_promises (promises w ++ [Rejected NOT_CONNECTED]) w, Ok (length (promises w)))
  else match socket w with
       | Some sid => (auth_started wallet sid w, Ok (length (promises w)))
       | None => (w, Ok 0)
       end.
Proof.
  unfold authenticate, async, try_catch. unfold bind at 1.
  rewrite ensureConnected_eq.
  destruct (not_connected w) eqn:Hn; [done|].
  unfold not_connected in Hn.
  destruct (socket w) as [sid|] eqn:Hs; [|by rewrite bool_decide_eq_true_2 in Hn].
  unfold bind, new_promise, setTimeout, socket_once, socket_emit, with_socket,
    bind, get, modify, update_socket, modify, ret.
  destruct w as [so op st ra rt aw eh ss ts ps tr]. cbn in Hs. subst so.
  world_fields. unfold auth_started.
  unfold set_sockets, set_timers, set_promises. world_fields.
  rewrite !list_alter_alter_eq. do 2 f_equal.
  apply list_alter_ext; [|done]. intros [u st0 l m] _.
  unfold install, add_sent, add_listener; cbn. by rewrite <- app_assoc.
Qed.

Lemma getBalance_eq w :
  getBalance w =
  if not_connected w
  then (set_promises (promises w ++ [Rejected NOT_CONNECTED]) w, Ok (length (promises w)))
  else if negb (truthy (authenticatedWallet w))
  then (set_promises (promises w ++ [Rejected NOT_AUTHENTICATED]) w, Ok (length (promises w)))
  else match socket w with
       | Some sid => (balance_requested sid w, Ok (length (promises w)))
       | None => (w, Ok 0)
       end.
Proof.
  unfold getBalance, async, try_catch. unfold bind at 1.
  rewrite ensureConnected_eq.
  destruct (not_connected w) eqn:Hn; [done|].
  unfold not_connected in Hn.
  destruct (socket w) as [sid|] eqn:Hs; [|by rewrite bool_decide_eq_true_2 in Hn].
  unfold bind, ensureAuthenticated, bind, get.
  destruct (negb (truthy (authenticatedWallet w))); [done|].
  unfold new_promise, socket_emit, with_socket, bind, get, modify, update_socket,
    modify, ret.
  destruct w as [so op st ra rt aw eh ss ts ps tr]. cbn in Hs. subst so.
  reflexivity.
Qed.

(** ** [socket.disconnect()] and [disconnect()] *)

Lemma socket_disconnect_spec sid w :
  let w' := fst (socket_disconnect sid w) in
  snd (socket_disconnect sid w) = Ok tt /\
  socket w' = socket w /\ options w' = options w /\
  eventHandlers w' = eventHandlers w /\
  Forall2 sock_step (alter (set_status SClosed) sid (sockets w)) (sockets w').
Proof.
  unfold socket_disconnect, bind, get.
  destruct (sockets w !! sid) as [s|] eqn:Hs; cbn [fst snd].
  - unfold update_socket, modify.
    destruct (bool_decide (s_status s = SConnected)).
    + match goal with |- context [socket_dispatch sid ?e ?d ?x] =>
        pose proof (socket_dispatch_frame sid e d x) as (H1&H2&H3&H4&H5) end.
      by repeat split.
    + cbn. repeat split. apply Forall2_sock_step_refl.
  - repeat split. rewrite alter_None by done. apply Forall2_sock_step_refl.
Qed.

Lemma disconnect_unfold w :
  disconnect w =
  (settle_disconnected
     match socket w with
     | Some sid => set_socket None (fst (socket_disconnect sid (clear_reconnect w)))
     | None => clear_reconnect w
     end, Ok tt).
Proof.
  unfold disconnect. unfold bind at 1, get at 1. unfold bind at 1.
  assert (match reconnectTimer w with
          | Some t => clearTimeout t;; modify (set_reconnectTimer None)
          | None => ret tt
          end w = (clear_reconnect w, Ok tt)) as ->.
  { unfold clear_reconnect. by destruct (reconnectTimer w). }
  assert (socket (clear_reconnect w) = socket w) as E1.
  { unfold clear_reconnect. by destruct (reconnectTimer w). }
  unfold bind at 1, get at 1. unfold bind at 1. rewrite E1.
  destruct (socket w) as [sid|] eqn:Hs.
  - unfold bind at 1.
    pose proof (socket_disconnect_spec sid (clear_reconnect w)) as (H1&_).
    destruct (socket_disconnect sid (clear_reconnect w)) as [w2 r]; cbn [fst snd] in *.
    subst r. unfold modify at 1. unfold bind, modify. by rewrite setState_eq.
  - unfold ret at 1. unfold bind, modify. by rewrite setState_eq.
Qed.

Lemma clear_reconnect_fields w :
  let w' := clear_reconnect w in
  socket w' = socket w /\ sockets w' = sockets w /\ options w' = options w /\
  eventHandlers w' = eventHandlers w /\ reconnectTimer w' = None /\
  state w' = state w /\ trace w' = trace w /\ promises w' = promises w /\
  authenticatedWallet w' = authenticatedWallet w /\
  reconnectAttempts w' = reconnectAttempts w.
Proof. unfold clear_reconnect. by destruct (reconnectTimer w) eqn:Hr. Qed.

Lemma disconnect_spec w :
  let w' := fst (disconnect w) in
  snd (disconnect w) = Ok tt /\
  state w' = Disconnected /\ socket w' = None /\
  authenticatedWallet w' = VNull /\
  options w' = options w /\ eventHandlers w' = eventHandlers w /\
  Forall2 sock_step (torn_down w) (sockets w').
Proof.
  rewrite disconnect_unfold. cbn [fst snd]. unfold torn_down.
  pose proof (clear_reconnect_fields w) as (E1&E2&E3&E4&_).
  destruct (socket w) as [sid|] eqn:Hs.
  - pose proof (socket_disconnect_spec sid (clear_reconnect w)) as (H1&H2&H3&H4&H5).
    unfold settle_disconnected. world_fields. rewrite <- E2.
    repeat split; try congruence.
  - unfold settle_disconnected. world_fields. rewrite <- E2.
    repeat split; try congruence. apply Forall2_sock_step_refl.
Qed.

Lemma socket_dispatch_single sid event data w s b :
  sockets w !! sid = Some s ->
  listeners_for event s = [mkListener event false b] ->
  socket_dispatch sid event data w = run_listener b data w.
Proof.
  intros Hs Hl. unfold socket_dispatch, bind, get. rewrite Hs, Hl.
  cbn [forEach]. unfold bind, deliver_to, bind. cbn [l_once l_body ret].
  pose proof (run_listener_spec b data w) as (H1 & _).
  destruct (run_listener b data w) as [w' r]; cbn in *. by subst r.
Qed.

Lemma disconnect_idle w :
  reconnectTimer w = None -> socket w = None ->
  disconnect w = (settle_disconnected w, Ok tt).
Proof.
  intros Ht Hs. rewrite disconnect_unfold, Hs. unfold clear_reconnect. by rewrite Ht.
Qed.

Lemma socket_disconnect_wf sid w s :
  sockets w !! sid = Some s -> sock_wf s ->
  socket_disconnect sid w = (closed_by_client sid s w, Ok tt).
Proof.
  intros Hs Hwf. unfold socket_disconnect, closed_by_client, bind, get.
  rewrite Hs. unfold update_socket, modify.
  destruct (bool_decide (s_status s = SConnected)); [|done].
  erewrite socket_dispatch_single with (s := set_status SClosed s) (b := OnDisconnect).
  - cbn [run_listener]. rewrite handleDisconnect_eq. cbn zeta.
    cbn [is_string CLIENT_DISCONNECT]. rewrite String.eqb_refl.
    cbn [negb]. rewrite andb_false_r. reflexivity.
  - cbn [sockets set_sockets]. rewrite list_lookup_alter_eq, Hs. done.
  - apply listeners_for_disconnect.
    destruct Hwf as (p & auths & Hl & Ha). by exists p, auths.
Qed.

Lemma Inv_new_client o : Inv (new_client o).
Proof. split; cbn; [done|constructor|done]. Qed.

Lemma sock_step_lookup ss ss' i s' :
  Forall2 sock_step ss ss' -> ss' !! i = Some s' ->
  exists s, ss !! i = Some s /\ sock_step s s'.
Proof. intros H Hl. by apply (Forall2_lookup_r _ _ _ _ _ H Hl). Qed.

Lemma sock_step_lookup_l ss ss' i s :
  Forall2 sock_step ss ss' -> ss !! i = Some s ->
  exists s', ss' !! i = Some s' /\ sock_step s s'.
Proof. intros H Hl. by apply (Forall2_lookup_l _ _ _ _ _ H Hl). Qed.

Lemma sock_step_wf ss ss' :
  Forall2 sock_step ss ss' -> Forall sock_wf ss -> Forall sock_wf ss'.
Proof.
  intros H Hwf. rewrite Forall_lookup in *. intros i s' Hl.
  destruct (sock_step_lookup _ _ _ _ H Hl) as (s & Hs & (_&Hw)). eauto.
Qed.

(** A step that keeps the reference and the state, and changes sockets
    neither in status nor in well-formedness, keeps the invariant. *)
Lemma Inv_sock_step w w' :
  Inv w -> socket w' = socket w -> state w' = state w ->
  Forall2 sock_step (sockets w) (sockets w') -> Inv w'.
Proof.
  intros [Hl Hw Hc] Hso Hst Hss. split.
  - intros i s' Hi Hlive.
    destruct (sock_step_lookup _ _ _ _ Hss Hi) as (s & Hs & (Hstat&_)).
    rewrite Hso, Hst. apply (Hl i s Hs). unfold live in *. congruence.
  - by apply (sock_step_wf _ _ Hss).
  - rewrite Hst, Hso. intros Hcon. destruct (Hc Hcon) as (i & s & H1 & H2 & H3).
    destruct (sock_step_lookup_l _ _ _ _ Hss H2) as (s' & Hs' & (Hstat&_)).
    exists i, s'. repeat split; congruence.
Qed.

Lemma Inv_same w w' :
  Inv w -> socket w' = socket w -> state w' = state w ->
  sockets w' = sockets w -> Inv w'.
Proof.
  intros HI H1 H2 H3. apply (Inv_sock_step w); auto.
  rewrite H3. apply Forall2_sock_step_refl.
Qed.

(** A world whose sockets are all closed and which is not in state
    connected satisfies the invariant. *)
Lemma Inv_closed w :
  Forall sock_wf (sockets w) ->
  (forall i s, sockets w !! i = Some s -> s_status s = SClosed) ->
  state w <> Connected -> Inv w.
Proof.
  intros Hw Hc Hs. split; [|done|done].
  intros i s Hi Hlive. exfalso. apply Hlive. eauto.
Qed.

(** Outside connecting and connected every socket is closed. *)
Lemma Inv_idle_closed w :
  Inv w -> state w <> Connecting -> state w <> Connected ->
  forall i s, sockets w !! i = Some s -> s_status s = SClosed.
Proof.
  intros [Hl _ _] H1 H2 i s Hi.
  destruct (decide (s_status s = SClosed)) as [|Hn]; [done|].
  destruct (Hl i s Hi Hn) as [_ [?|?]]; congruence.
Qed.

(** Closing the socket that is referenced leaves every socket closed. *)
Lemma Inv_torn_down w :
  Inv w -> forall i s, torn_down w !! i = Some s -> s_status s = SClosed.
Proof.
  intros [Hl _ _] i s. unfold torn_down.
  destruct (socket w) as [sid|] eqn:Hso.
  - destruct (decide (sid = i)) as [->|Hne].
    + rewrite list_lookup_alter_eq. destruct (sockets w !! i); [|done].
      cbn. by intros [= <-].
    + rewrite list_lookup_alter_ne by done. intros Hi.
      destruct (decide (s_status s = SClosed)) as [|Hn]; [done|].
      destruct (Hl i s Hi Hn) as [? _]. congruence.
  - intros Hi. destruct (decide (s_status s = SClosed)) as [|Hn]; [done|].
    destruct (Hl i s Hi Hn) as [? _]. congruence.
Qed.

Lemma set_status_wf st s : sock_wf s -> sock_wf (set_status st s).
Proof. intros (p & auths & ? & ?). by exists p, auths. Qed.

Lemma torn_down_wf w : Forall sock_wf (sockets w) -> Forall sock_wf (torn_down w).
Proof.
  intros Hw. unfold torn_down. destruct (socket w) as [sid|]; [|done].
  apply Forall_alter; [done|]. intros s _. apply set_status_wf.
Qed.

(** ** Every step keeps the invariant *)

Lemma connect_listeners_wf u st p sent : sock_wf (mkSock u st (connect_listeners p) sent).
Proof. exists p, []. split; [by rewrite app_nil_r|done]. Qed.

Lemma connect_Inv w : Inv w -> Inv (fst (connect w)).
Proof.
  intros HI. rewrite connect_eq.
  destruct (bool_decide (state w = Connected) || bool_decide (state w = Connecting)) eqn:Hg.
  - by apply (Inv_same w).
  - apply orb_false_elim in Hg as [H1%bool_decide_eq_false H2%bool_decide_eq_false].
    pose proof (Inv_idle_closed w HI H2 H1) as Hclosed.
    cbn [fst]. unfold open_transport. split; world_fields.
    + intros i s Hi Hlive.
      apply lookup_app_Some in Hi as [Hi|[Hlen Hi]].
      * exfalso. apply Hlive. eauto.
      * split; [|by left]. f_equal.
        apply lookup_lt_Some in Hi. cbn in Hi. lia.
    + apply Forall_app. split; [apply HI|].
      constructor; [apply connect_listeners_wf|constructor].
    + done.
Qed.

Lemma disconnect_Inv w : Inv w -> Inv (fst (disconnect w)).
Proof.
  intros HI. pose proof (disconnect_spec w) as (_&H1&H2&H3&_&_&H4).
  apply Inv_closed.
  - apply (sock_step_wf _ _ H4), torn_down_wf, HI.
  - intros i s' Hi. destruct (sock_step_lookup _ _ _ _ H4 Hi) as (s & Hs & (Hst&_)).
    rewrite Hst. by apply (Inv_torn_down w HI i).
  - congruence.
Qed.

Lemma alter_Inv f sid w :
  (forall s, sock_step s (f s)) ->
  Inv w -> Inv (set_sockets (alter f sid (sockets w)) w).
Proof.
  intros Hf HI. apply (Inv_sock_step w); auto. by apply alter_sock_step.
Qed.

Lemma add_sent_step m s : sock_step s (add_sent m s).
Proof.
  split; [done|]. intros (p & auths & ? & ?). by exists p, auths.
Qed.

Lemma install_auth_wf ls s :
  forallb auth_listener ls = true -> sock_wf s -> sock_wf (install ls s).
Proof.
  intros Hls (p & auths & Hl & Ha). exists p, (auths ++ ls). split.
  - cbn. by rewrite Hl, <- app_assoc.
  - rewrite forallb_app. by rewrite Ha, Hls.
Qed.

Lemma send_Inv m w : Inv w -> Inv (send m w).
Proof.
  intros HI. unfold send. destruct (socket w); [|done].
  apply alter_Inv; [|done]. apply add_sent_step.
Qed.

Lemma guarded_emit_Inv event data ack w :
  Inv w -> Inv (fst ((ensureConnected;; socket_emit event data ack) w)).
Proof.
  intros HI. rewrite guarded_emit_eq. destruct (not_connected w); [done|].
  by apply send_Inv.
Qed.

Lemma authenticate_Inv wallet w : Inv w -> Inv (fst (authenticate wallet w)).
Proof.
  intros HI. rewrite authenticate_eq. destruct (not_connected w).
  - by apply (Inv_same w).
  - destruct (socket w) as [sid|] eqn:Hs; [|done].
    cbn [fst]. unfold auth_started.
    apply (Inv_sock_step w); auto. world_fields.
    apply alter_sock_step. intros s.
    eapply sock_step_trans; [|apply add_sent_step].
    split; [done|]. by apply install_auth_wf.
Qed.

Lemma getBalance_Inv w : Inv w -> Inv (fst (getBalance w)).
Proof.
  intros HI. rewrite getBalance_eq. destruct (not_connected w).
  - by apply (Inv_same w).
  - destruct (negb (truthy (authenticatedWallet w))); [by apply (Inv_same w)|].
    destruct (socket w) as [sid|] eqn:Hs; [|done].
    cbn [fst]. unfold balance_requested.
    apply (Inv_sock_step w); auto. world_fields.
    apply alter_sock_step. intros s. apply add_sent_step.
Qed.

Lemma settle_Inv p s w : Inv w -> Inv (fst (settle p s w)).
Proof.
  intros HI. pose proof (settle_same p s w) as (H1&H2&_).
  pose proof (settle_fields p s w) as (H3&_).
  by apply (Inv_same w).
Qed.

(** Delivering a message the server sent: the state stays or becomes
    connected, the identity stays or becomes the wallet of the message. *)
Lemma server_message_effect sid event data w s :
  sockets w !! sid = Some s -> sock_wf s -> reserved_event event = false ->
  let w' := fst (socket_dispatch sid event data w) in
  (state w' = state w \/ state w' = Connected) /\
  (authenticatedWallet w' = authenticatedWallet w \/
   authenticatedWallet w' = field "wallet" data).
Proof.
  intros Hs Hwf Hr.
  apply (socket_dispatch_effect
    (fun w0 => (state w0 = state w \/ state w0 = Connected) /\
               (authenticatedWallet w0 = authenticatedWallet w \/
                authenticatedWallet w0 = field "wallet" data)) sid event data w s Hs).
  - intros w0 w1 E1 E2 _. by rewrite E1, E2.
  - intros l w0 Hl [Hst Haw].
    pose proof (listeners_for_message _ _ _ Hwf Hr Hl) as Hb.
    pose proof (run_listener_spec (l_body l) data w0) as (_&_&He).
    destruct (l_body l); try discriminate; cbn [listener_effect] in He;
      destruct_and!; split; destruct Hst, Haw;
      first [left; congruence | right; congruence].
  - by split; left.
Qed.

Lemma status_of_Some sid w st :
  status_of sid w = Some st ->
  exists s, sockets w !! sid = Some s /\ s_status s = st.
Proof.
  unfold status_of. destruct (sockets w !! sid) as [s|]; [|done].
  cbn. intros [= <-]. by exists s.
Qed.

Lemma transport_open_Inv sid w :
  status_of sid w = Some SOpening ->
  Inv w -> Inv (set_sockets (alter (set_status SConnected) sid (sockets w)) w).
Proof.
  intros (s0 & Hs0 & Hst0)%status_of_Some [Hl Hw Hc]. split; world_fields.
  - intros i s Hi Hlive. destruct (decide (sid = i)) as [->|Hne].
    + apply (Hl i s0 Hs0). unfold live. by rewrite Hst0.
    + rewrite list_lookup_alter_ne in Hi by done. by apply (Hl i s).
  - apply Forall_alter; [done|]. intros s _. apply set_status_wf.
  - intros Hcon. destruct (Hc Hcon) as (i & s & H1 & H2 & H3).
    destruct (decide (sid = i)) as [->|Hne].
    + exists i, (set_status SConnected s). rewrite list_lookup_alter_eq, H2. done.
    + exists i, s. by rewrite list_lookup_alter_ne.
Qed.

(** The transport of the referenced socket going away: the socket is
    closed, then its listener for the event runs. *)
Lemma transport_lost_Inv sid event data st w :
  (event = "connect_error" \/ event = "disconnect") ->
  status_of sid w = Some st -> st <> SClosed ->
  Inv w ->
  let wc := set_sockets (alter (set_status SClosed) sid (sockets w)) w in
  Inv (fst (socket_dispatch sid event data wc)).
Proof.
  intros Hev (s0 & Hs0 & Hst0)%status_of_Some Hne HI wc.
  assert (socket w = Some sid) as Hso.
  { apply (inv_live w HI sid s0 Hs0). unfold live. congruence. }
  assert (sockets wc = torn_down w) as Htd.
  { unfold torn_down. by rewrite Hso. }
  assert (sockets wc !! sid = Some (set_status SClosed s0)) as Hsc.
  { cbn. by rewrite list_lookup_alter_eq, Hs0. }
  assert (sock_wf (set_status SClosed s0)) as Hwf.
  { apply set_status_wf. pose proof (inv_wf w HI) as Hw.
    rewrite Forall_lookup in Hw. eauto. }
  assert (exists b, socket_dispatch sid event data wc = run_listener b data wc /\
                    transport_body b = true) as (b & -> & Hb).
  { destruct Hev as [-> | ->].
    - destruct (listeners_for_connect_error _ Hwf) as (p & Hp).
      exists (OnConnectError p). split; [|done].
      by apply (socket_dispatch_single _ _ _ _ (set_status SClosed s0)).
    - exists OnDisconnect. split; [|done].
      apply (socket_dispatch_single _ _ _ _ (set_status SClosed s0)); [done|].
      by apply listeners_for_disconnect. }
  pose proof (run_listener_spec b data wc) as (_ & (E1&E2&_) & He).
  apply Inv_closed.
  - rewrite E1, Htd. apply torn_down_wf, HI.
  - rewrite E1, Htd. apply (Inv_torn_down w HI).
  - destruct b; try discriminate; cbn [listener_effect] in He;
      destruct He as [He _]; intros Hcon; rewrite Hcon in He;
      repeat destruct He as [He|He]; discriminate.
Qed.

Lemma server_message_Inv sid event data w :
  status_of sid w = Some SConnected -> reserved_event event = false ->
  Inv w -> Inv (fst (socket_dispatch sid event data w)).
Proof.
  intros (s0 & Hs0 & Hst0)%status_of_Some Hr HI.
  assert (sock_wf s0) as Hwf0.
  { pose proof (inv_wf w HI) as Hw. rewrite Forall_lookup in Hw. eauto. }
  pose proof (socket_dispatch_frame sid event data w) as (_&F1&_&_&F2).
  pose proof (server_message_effect sid event data w s0 Hs0 Hwf0 Hr) as [Hst _].
  destruct HI as [Hl Hw Hc]. split.
  - intros i s' Hi Hlive.
    destruct (sock_step_lookup _ _ _ _ F2 Hi) as (s & Hs & (Hstat&_)).
    rewrite F1. destruct (Hl i s Hs) as [H1 H2]; [unfold live in *; congruence|].
    split; [done|]. destruct Hst as [-> | ->]; tauto.
  - by apply (sock_step_wf _ _ F2).
  - intros _. destruct (Hl sid s0 Hs0) as [H1 _]; [unfold live; congruence|].
    destruct (sock_step_lookup_l _ _ _ _ F2 Hs0) as (s' & Hs' & (Hstat&_)).
    exists sid, s'. rewrite F1. repeat split; congruence.
Qed.

Lemma environment_Inv a w : Inv w -> Inv (fst (environment a w)).
Proof.
  intros HI. unfold environment, bind, get.
  destruct a; try done.
  - destruct (bool_decide (status_of sid w = Some SOpening)) eqn:Hb; [|done].
    apply bool_decide_eq_true in Hb. by apply transport_open_Inv.
  - destruct (bool_decide (status_of sid w = Some SOpening)) eqn:Hb; [|done].
    apply bool_decide_eq_true in Hb.
    unfold update_socket, modify.
    apply (transport_lost_Inv sid "connect_error" _ SOpening); auto.
  - destruct (bool_decide (status_of sid w = Some SConnected)) eqn:Hb; [|done].
    apply bool_decide_eq_true in Hb.
    unfold update_socket, modify.
    apply (transport_lost_Inv sid "disconnect" _ SConnected); auto.
  - destruct (bool_decide (status_of sid w = Some SConnected)) eqn:Hb; [|done].
    apply bool_decide_eq_true in Hb.
    destruct (reserved_event event) eqn:Hr; [done|].
    by apply server_message_Inv.
  - destruct (_ && _); [|done]. by apply settle_Inv.
  - destruct (timers w !! id) as [t|]; [|done].
    destruct (t_pending t); [|done].
    unfold clearTimeout, modify.
    assert (Inv (set_timers (alter cancel_timer id (timers w)) w)) as HI'
      by (by apply (Inv_same w)).
    destruct (t_callback t); cbn [run_timer].
    + unfold bind. pose proof (connect_Inv _ HI') as Hc.
      by destruct (connect _) as [w1 [p|e]].
    + by apply settle_Inv.
Qed.

Lemma registry_Inv f w : Inv w -> Inv (set_eventHandlers f w).
Proof. intros HI. by apply (Inv_same w). Qed.

Lemma sync_call_fst c w : fst (sync_call c w) = fst (c w).
Proof. unfold sync_call. by destruct (c w) as [w1 [[]|e]]. Qed.

Lemma async_call_fst c w : fst (async_call c w) = fst (c w).
Proof. unfold async_call. by destruct (c w) as [w1 [p|e]]. Qed.

Lemma exec_Inv a w : Inv w -> Inv (exec a w).
Proof.
  intros HI. unfold exec, step.
  destruct a; rewrite ?sync_call_fst, ?async_call_fst;
    try (by apply environment_Inv).
  - by apply connect_Inv.
  - by apply disconnect_Inv.
  - by apply guarded_emit_Inv.
  - by apply guarded_emit_Inv.
  - by apply guarded_emit_Inv.
  - by apply guarded_emit_Inv.
  - by apply guarded_emit_Inv.
  - by apply guarded_emit_Inv.
  - by apply authenticate_Inv.
  - by apply getBalance_Inv.
  - by apply registry_Inv.
  - by apply registry_Inv.
  - unfold removeAllListeners, modify. cbn.
    destruct event as [e|]; [destruct (String.eqb e "")|]; by apply registry_Inv.
Qed.

Lemma run_Inv acts w : Inv w -> Inv (run acts w).
Proof.
  revert w. induction acts as [|a acts IH]; intros w HI; [done|].
  cbn. apply IH. by apply exec_Inv.
Qed.

Lemma reachable_Inv w : reachable w -> Inv w.
Proof. intros (o & acts & ->). apply run_Inv, Inv_new_client. Qed.


Lemma run_app acts1 acts2 w : run (acts1 ++ acts2) w = run acts2 (run acts1 w).
Proof. unfold run. by rewrite fold_left_app. Qed.

Lemma reachable_exec a w : reachable w -> reachable (exec a w).
Proof.
  intros (o & acts & ->). exists o, (acts ++ [a]). by rewrite run_app.
Qed.

Lemma reachable_run acts w : reachable w -> reachable (run acts w).
Proof.
  intros (o & acts0 & ->). exists o, (acts0 ++ acts). by rewrite run_app.
Qed.

(** ** Reading traces *)

Lemma invocations_app t1 t2 :
  invocations (t1 ++ t2) = invocations t1 ++ invocations t2.
Proof. apply omap_app. Qed.

Lemma emissions_app t1 t2 : emissions (t1 ++ t2) = emissions t1 ++ emissions t2.
Proof. apply omap_app. Qed.

Lemma invocations_deliveries event data hs :
  invocations (flat_map (delivery event data) hs)
  = map (fun h => (event, h_id h, data)) hs.
Proof.
  induction hs as [|h hs IH]; [done|].
  cbn [flat_map map]. rewrite invocations_app, IH.
  unfold delivery. by destruct (h_call h data).
Qed.

Lemma emissions_deliveries event data hs :
  emissions (flat_map (delivery event data) hs) = [].
Proof.
  induction hs as [|h hs IH]; [done|].
  cbn [flat_map]. rewrite emissions_app, IH.
  unfold delivery. by destruct (h_call h data).
Qed.

(** One call of [emit] is one emission, whatever the handlers. *)
Lemma emissions_emitted event data w :
  emissions (emitted event data w) = [(event, data)].
Proof.
  unfold emitted. change (emissions (Emit event data :: ?t))
    with ((event, data) :: emissions t).
  by rewrite emissions_deliveries.
Qed.

(** ** Environment steps, unfolded *)

Lemma exec_server_message sid event data w :
  status_of sid w = Some SConnected -> reserved_event event = false ->
  exec (ServerMessage sid event data) w = fst (socket_dispatch sid event data w).
Proof.
  intros Hs Hr. unfold exec, step. rewrite sync_call_fst.
  unfold environment, bind, get. by rewrite (bool_decide_eq_true_2 _ Hs), Hr.
Qed.

Lemma exec_transport_disconnect sid reason w s :
  sockets w !! sid = Some s -> s_status s = SConnected -> sock_wf s ->
  exec (TransportDisconnect sid reason) w =
  fst (handleDisconnect (VStr reason)
         (set_sockets (alter (set_status SClosed) sid (sockets w)) w)).
Proof.
  intros Hs Hst Hwf. unfold exec, step. rewrite sync_call_fst.
  unfold environment, bind, get.
  assert (status_of sid w = Some SConnected) as Hso.
  { unfold status_of. by rewrite Hs, <- Hst. }
  rewrite (bool_decide_eq_true_2 _ Hso). unfold update_socket, modify.
  rewrite (socket_dispatch_single _ _ _ _ (set_status SClosed s) OnDisconnect).
  - done.
  - cbn. by rewrite list_lookup_alter_eq, Hs.
  - apply listeners_for_disconnect, set_status_wf, Hwf.
Qed.

(** The server's acknowledgment arriving on a connected socket. *)
Lemma ack_effect sid data w :
  Inv w -> status_of sid w = Some SConnected ->
  let w' := exec (ServerMessage sid "connected" data) w in
  state w' = Connected /\ reconnectAttempts w' = 0%Z /\
  authenticatedWallet w' = authenticatedWallet w /\
  trace w' = trace w ++ emitted "stateChange" (VStr "connected") w
                     ++ emitted "connected" data w.
Proof.
  intros HI Hs. rewrite exec_server_message by done.
  destruct (status_of_Some _ _ _ Hs) as (s & Hl & Hst).
  assert (sock_wf s) as Hwf.
  { pose proof (inv_wf w HI) as Hw. rewrite Forall_lookup in Hw. eauto. }
  destruct (listeners_for_connected s Hwf) as (p & Hp).
  rewrite (socket_dispatch_single _ _ _ _ s (OnConnected p) Hl Hp).
  cbn [run_listener]. unfold bind, modify, resolve, settle, modify.
  rewrite setState_eq, emit_eq. world_fields.
  destruct (promises w !! p) as [[]|]; cbn; by rewrite <- app_assoc.
Qed.

(** * The claims *)

(** ** C1: one live transport *)



(** ** C7: connected-only methods outside state connected *)

(** C7.  Each of subscribePrices, getPrices, subscribeOrderBook,
    subscribeTrades, subscribeCandles, unsubscribe, authenticate and
    getBalance, called while the state is not connected, fails with the
    "Not connected" error before doing anything: the synchronous methods
    throw it and leave the world untouched, the two [async] methods hand
    back a promise already rejected with it.  In every case no message is
    written to any socket, no event is emitted, and no field of the client
    changes. *)
Theorem C7_not_connected_precondition (a : Action) (w : World) :
  connected_only a = true ->
  state w <> Connected ->
  let (w', out) := step a w in
  failed_with NOT_CONNECTED w' out /\
  sockets w' = sockets w /\ trace w' = trace w /\ timers w' = timers w /\
  state w' = state w /\ socket w' = socket w /\
  authenticatedWallet w' = authenticatedWallet w /\
  (forall e, out = Threw e -> w' = w).
Proof.
  intros Ha Hs. pose proof (not_connected_state w Hs) as Hn.
  destruct a; try discriminate; unfold step, sync_call, async_call.
  - unfold subscribePrices. rewrite guarded_emit_eq, Hn. by repeat split.
  - unfold getPrices. rewrite guarded_emit_eq, Hn. by repeat split.
  - unfold subscribeOrderBook. rewrite guarded_emit_eq, Hn. by repeat split.
  - unfold subscribeTrades. rewrite guarded_emit_eq, Hn. by repeat split.
  - unfold subscribeCandles. rewrite guarded_emit_eq, Hn. by repeat split.
  - unfold unsubscribe. rewrite guarded_emit_eq, Hn. by repeat split.
  - rewrite authenticate_eq, Hn. repeat split; try done.
    cbn. by rewrite list_lookup_middle.
  - rewrite getBalance_eq, Hn. repeat split; try done.
    cbn. by rewrite list_lookup_middle.
Qed.

Lemma C7_not_connected_precondition_witness :
  step (CallSubscribePrices (Some "BTC")) (new_client no_options)
    = (new_client no_options, Threw NOT_CONNECTED) /\
  failed_with NOT_CONNECTED
    (fst (step (CallAuthenticate "0xabc") (new_client no_options)))
    (snd (step (CallAuthenticate "0xabc") (new_client no_options))).
Proof.
  split.
  - reflexivity.
  - pose proof (C7_not_connected_precondition (CallAuthenticate "0xabc")
                  (new_client no_options)) as H.
    destruct (step (CallAuthenticate "0xabc") (new_client no_options)) as [w' out].
    apply H; [reflexivity|discriminate].
Defined.

(** ** C8: handlers that throw *)


(** A handler for [prices] that throws, registered before one that does
    not: both are called for the same emission. *)
Example throwing_handler_then_second :
  let boom := mkHandler 1 (fun _ => Some "boom") in
  let fine := mkHandler 2 (fun _ => None) in
  let w := run [CallOn "prices" boom; CallOn "prices" fine] (new_client no_options) in
  trace (fst (emit "prices" (VArr []) w)) =
  [Emit "prices" (VArr []);
   Invoked "prices" 1 (VArr []); ConsoleError "prices" "boom";
   Invoked "prices" 2 (VArr [])].
Proof. reflexivity. Qed.

(** ** C6: the reconnection policy *)


(** With the default configuration (base 1000, at most 10 attempts) every
    delay is a number a double holds exactly, so that the exact rationals
    of the model and the doubles of the program agree on them. *)
Lemma default_delays_double_exact k :
  (1 <= k <= 10)%Z -> double_exact (spec_backoff 1000 k).
Proof.
  intros Hk. exists (1000 * 3 ^ (k - 1))%Z, (Z.to_nat (k - 1)).
  assert (k = 1 \/ k = 2 \/ k = 3 \/ k = 4 \/ k = 5 \/ k = 6 \/ k = 7 \/
          k = 8 \/ k = 9 \/ k = 10)%Z as Hcases by lia.
  repeat destruct Hcases as [Hcases|Hcases]; subst k; split;
    vm_compute; reflexivity.
Qed.



(** ** C3: [disconnect()] twice *)

Lemma disconnect_clears_timer w :
  Forall sock_wf (sockets w) -> reconnectTimer (fst (disconnect w)) = None.
Proof.
  intros Hwf. rewrite disconnect_unfold. cbn [fst].
  pose proof (clear_reconnect_fields w) as (_&E2&_&_&E5&_).
  unfold settle_disconnected. world_fields.
  destruct (socket w) as [sid|]; [|done]. world_fields.
  destruct (sockets w !! sid) as [s|] eqn:Hs.
  - rewrite (socket_disconnect_wf sid _ s).
    + cbn [fst]. unfold closed_by_client.
      by destruct (bool_decide (s_status s = SConnected)).
    + by rewrite E2.
    + rewrite Forall_lookup in Hwf. eauto.
  - unfold socket_disconnect, bind, get. by rewrite E2, Hs.
Qed.

(** C3, as amended.  In every reachable world neither of two [disconnect()]
    calls in a row throws, and the second changes no field of the client
    and nothing in the environment except the trace: it emits no
    [connected], [disconnected], [error] or [reconnecting] event and does
    no transport I/O, but it does announce the state once more, with one
    [stateChange] event carrying "disconnected" that is delivered to the
    handlers registered for it. *)
Theorem C3_second_disconnect (w : World) :
  reachable w ->
  let (w1, out1) := step CallDisconnect w in
  let (w2, out2) := step CallDisconnect w1 in
  out1 = Returned /\ out2 = Returned /\
  w2 = set_trace (trace w1 ++ emitted "stateChange" (VStr "disconnected") w1) w1 /\
  emissions (emitted "stateChange" (VStr "disconnected") w1)
    = [("stateChange", VStr "disconnected")].
Proof.
  intros HI%reachable_Inv. unfold step, sync_call.
  pose proof (disconnect_spec w) as (H0&H1&H2&H3&_).
  pose proof (disconnect_clears_timer w (inv_wf w HI)) as H4.
  destruct (disconnect w) as [w1 r1]; cbn [fst snd] in *. subst r1.
  rewrite (disconnect_idle w1 H4 H2).
  split; [done|split; [done|split; [|apply emissions_emitted]]].
  unfold settle_disconnected, log_emit.
  destruct w1; cbn in *. by subst.
Qed.

Lemma C3_second_disconnect_witness :
  let w := run [CallConnect; TransportOpen 0] (new_client no_options) in
  reachable w /\
  let (w1, out1) := step CallDisconnect w in
  let (w2, out2) := step CallDisconnect w1 in
  out1 = Returned /\ out2 = Returned /\
  w2 = set_trace (trace w1 ++ emitted "stateChange" (VStr "disconnected") w1) w1 /\
  emissions (emitted "stateChange" (VStr "disconnected") w1)
    = [("stateChange", VStr "disconnected")].
Proof.
  intros w.
  assert (reachable w) as Hr.
  { exists no_options, [CallConnect; TransportOpen 0]. reflexivity. }
  split; [exact Hr|]. exact (C3_second_disconnect w Hr).
Defined.

(** The claim as stated fails: with a handler registered for [stateChange],
    the second of two [disconnect()] calls in a row emits one more
    [stateChange] event and calls the handler again. *)
Lemma C3_counterexample :
  let h := mkHandler 0 (fun _ => None) in
  let w1 := run [CallOn "stateChange" h; CallDisconnect] (new_client no_options) in
  let w2 := exec CallDisconnect w1 in
  trace w2 = trace w1 ++ [Emit "stateChange" (VStr "disconnected");
                          Invoked "stateChange" 0 (VStr "disconnected")] /\
  emissions (trace w2) <> emissions (trace w1).
Proof. split; [reflexivity|discriminate]. Qed.

(** ** C5: after the attempts are exhausted *)

Lemma cancel_keeps_no_pending id w :
  no_pending_reconnect w ->
  no_pending_reconnect (set_timers (alter cancel_timer id (timers w)) w).
Proof.
  intros Hn i t. cbn. destruct (decide (id = i)) as [->|Hne].
  - rewrite list_lookup_alter_eq. destruct (timers w !! i) as [t0|]; [|done].
    cbn. by intros [= <-].
  - rewrite list_lookup_alter_ne by done. apply Hn.
Qed.

Lemma all_fired_no_pending w :
  Forall (fun t => t_pending t = false) (timers w) -> no_pending_reconnect w.
Proof.
  intros Hall i t Hi _. rewrite Forall_lookup in Hall. by apply (Hall i).
Qed.

Lemma at_rest_exec a w :
  caller_reset a = false -> at_rest w -> at_rest (exec a w).
Proof.
  intros Ha (HI & Hst & Hn). split; [by apply exec_Inv|].
  assert (state w <> Connected) as Hnc by congruence.
  assert (forall sid st, st <> SClosed -> status_of sid w <> Some st) as Hclosed.
  { intros sid st Hne (s & Hs & Hs')%status_of_Some.
    rewrite (Inv_idle_closed w HI ltac:(congruence) ltac:(congruence) sid s Hs) in Hs'.
    congruence. }
  pose proof (not_connected_state w Hnc) as Hg.
  unfold exec, step.
  destruct a; try discriminate; rewrite ?sync_call_fst, ?async_call_fst.
  - unfold subscribePrices. by rewrite guarded_emit_eq, Hg.
  - unfold getPrices. by rewrite guarded_emit_eq, Hg.
  - unfold subscribeOrderBook. by rewrite guarded_emit_eq, Hg.
  - unfold subscribeTrades. by rewrite guarded_emit_eq, Hg.
  - unfold subscribeCandles. by rewrite guarded_emit_eq, Hg.
  - unfold unsubscribe. by rewrite guarded_emit_eq, Hg.
  - by rewrite authenticate_eq, Hg.
  - by rewrite getBalance_eq, Hg.
  - done.
  - done.
  - unfold removeAllListeners, modify. cbn.
    by destruct event as [e|]; [destruct (String.eqb e "")|].
  - unfold environment, bind, get.
    by rewrite bool_decide_eq_false_2 by (by apply Hclosed).
  - unfold environment, bind, get.
    by rewrite bool_decide_eq_false_2 by (by apply Hclosed).
  - unfold environment, bind, get.
    by rewrite bool_decide_eq_false_2 by (by apply Hclosed).
  - unfold environment, bind, get.
    by rewrite bool_decide_eq_false_2 by (by apply Hclosed).
  - unfold environment, bind, get.
    by rewrite bool_decide_eq_false_2 by (by apply Hclosed).
  - unfold environment, bind, get.
    destruct (timers w !! id) as [t|] eqn:Ht; [|done].
    destruct (t_pending t) eqn:Hp; [|done].
    destruct (t_callback t) as [|p] eqn:Hc.
    + rewrite (Hn id t Ht Hc) in Hp. discriminate.
    + cbn [run_timer]. unfold clearTimeout, modify, reject.
      match goal with |- context [settle p ?s ?x] =>
        pose proof (settle_fields p s x) as (E1&_&_&_&E2&_) end.
      split; [by rewrite E1|].
      intros i t0. rewrite E2. by apply cancel_keeps_no_pending.
Qed.

Lemma at_rest_run acts w :
  Forall (fun a => caller_reset a = false) acts -> at_rest w -> at_rest (run acts w).
Proof.
  intros Hacts. revert w. induction Hacts as [|a acts Ha _ IH]; intros w Hw; [done|].
  cbn. apply IH. by apply at_rest_exec.
Qed.

(** C5, as amended.  When [scheduleReconnect] finds the attempts used up it
    schedules no timer, sets the state to error and emits the [error] event
    with the max-attempts code.  In state error, as long as no reconnect
    timer from before is still pending, no transport event, timer or other
    method call changes the state: it stays error until the caller calls
    [connect()] (or [disconnect()]).  That [connect()] re-enters connecting
    and opens a fresh transport, but leaves the attempt counter as it was;
    the counter returns to 0 only when the acknowledgment of a connection
    arrives. *)
Theorem C5_error_until_connect (w : World) :
  ((maxReconnectAttempts (options w) <= reconnectAttempts w)%Z ->
     let w' := fst (scheduleReconnect w) in
     state w' = Error /\ timers w' = timers w /\
     reconnectAttempts w' = reconnectAttempts w /\
     exists extra, trace w' = trace w ++ extra /\
       emissions extra = [("stateChange", VStr "error");
                          ("error", MAX_RECONNECT_ERROR)]) /\
  (reachable w -> state w = Error -> no_pending_reconnect w ->
     forall acts, Forall (fun a => caller_reset a = false) acts ->
       state (run acts w) = Error) /\
  (state w = Error ->
     let w' := exec CallConnect w in
     state w' = Connecting /\
     reconnectAttempts w' = reconnectAttempts w /\
     socket w' = Some (length (sockets w)) /\
     map s_status (sockets w') = map s_status (sockets w) ++ [SOpening]) /\
  (reachable w -> forall sid data, status_of sid w = Some SConnected ->
     reconnectAttempts (exec (ServerMessage sid "connected" data) w) = 0%Z).
Proof.
  split; [|split; [|split]].
  - intros Hmax. rewrite scheduleReconnect_eq.
    rewrite (proj2 (Z.leb_le _ _)) by done. cbn [fst]. unfold attempts_exhausted. world_fields.
    split; [done|split; [done|split; [done|]]].
    eexists. rewrite <- app_assoc. split; [reflexivity|].
    by rewrite emissions_app, !emissions_emitted.
  - intros Hr Hst Hn acts Hacts.
    apply (at_rest_run acts w Hacts). split; [by apply reachable_Inv|done].
  - intros Hst. unfold exec, step.
    rewrite async_call_fst, connect_opens by congruence.
    cbn [fst]. unfold open_transport. world_fields.
    split; [done|split; [done|split; [done|]]].
    by rewrite map_app.
  - intros Hr sid data Hs. by apply ack_effect; [apply reachable_Inv|].
Qed.

Lemma C5_error_until_connect_witness :
  let w := run exhausting_run (new_client two_attempts) in
  state w = Error /\
  state (run [TimerFire 0; TimerFire 1; CallSubscribePrices None; CallGetBalance] w)
    = Error /\
  state (exec CallConnect w) = Connecting /\
  reconnectAttempts (exec CallConnect w) = 2%Z.
Proof.
  intros w.
  assert (reachable w) as Hr.
  { exists two_attempts, exhausting_run. reflexivity. }
  assert (state w = Error) as Hst by (vm_compute; reflexivity).
  assert (timers w = [mkTimer TReconnect (100 * (1 # 1))%Q false;
                      mkTimer TReconnect (100 * (3 # 2))%Q false]) as Ht
    by (vm_compute; reflexivity).
  assert (no_pending_reconnect w) as Hn.
  { apply all_fired_no_pending. rewrite Ht. repeat constructor. }
  destruct (C5_error_until_connect w) as (_ & H2 & H3 & _).
  split; [exact Hst|]. split.
  - apply (H2 Hr Hst Hn). repeat constructor.
  - destruct (H3 Hst) as (H5 & H6 & _). split; [exact H5|]. rewrite H6.
    vm_compute. reflexivity.
Defined.

(** The claim as stated fails: after the attempts are exhausted an explicit
    [connect()] re-enters connecting but does not reset the counter, so
    that one more connection failure leads straight back to error, without
    any retry. *)
Lemma C5_counterexample :
  let w := run exhausting_run (new_client two_attempts) in
  state w = Error /\ reconnectAttempts w = 2%Z /\
  state (exec CallConnect w) = Connecting /\
  reconnectAttempts (exec CallConnect w) = 2%Z /\
  reconnectAttempts (exec CallConnect w) <> 0%Z /\
  let w' := run [CallConnect; TransportConnectError 3 "refused"] w in
  state w' = Error /\ timers w' = timers w.
Proof. vm_compute. repeat split; discriminate. Qed.

(** ** C9: price snapshots and updates *)

Lemma relay_prices sid event data w :
  Inv w -> status_of sid w = Some SConnected ->
  event = "prices:snapshot" \/ event = "prices:update" ->
  exec (ServerMessage sid event data) w = log_emit "prices" data w.
Proof.
  intros HI Hs Hev.
  destruct (status_of_Some _ _ _ Hs) as (s & Hl & Hst).
  assert (sock_wf s) as Hwf.
  { pose proof (inv_wf w HI) as Hw. rewrite Forall_lookup in Hw. eauto. }
  rewrite exec_server_message; [|done|by destruct Hev as [-> | ->]].
  rewrite (socket_dispatch_single _ _ _ _ s (Relay "prices") Hl).
  - cbn [run_listener]. by rewrite emit_eq.
  - destruct Hev as [-> | ->];
      [by apply listeners_for_prices_snapshot|by apply listeners_for_prices_update].
Qed.

(** C9.  In every reachable world, a [prices:snapshot] message and then a
    [prices:update] message arriving on the connected socket each make the
    client call [emit("prices", payload)] exactly once and do nothing else:
    two emissions of [prices] for the pair, each carrying the payload of
    its message unchanged, and each handler registered for [prices] called
    once per message with that payload. *)
Theorem C9_prices_relayed (w : World) (sid : nat) (d1 d2 : value) :
  reachable w -> status_of sid w = Some SConnected ->
  let w1 := exec (ServerMessage sid "prices:snapshot" d1) w in
  let w2 := exec (ServerMessage sid "prices:update" d2) w1 in
  w1 = set_trace (trace w ++ emitted "prices" d1 w) w /\
  w2 = set_trace (trace w ++ emitted "prices" d1 w ++ emitted "prices" d2 w) w /\
  emissions (emitted "prices" d1 w ++ emitted "prices" d2 w)
    = [("prices", d1); ("prices", d2)] /\
  invocations (emitted "prices" d1 w ++ emitted "prices" d2 w)
    = map (fun h => ("prices", h_id h, d1)) (handlers_of "prices" w)
      ++ map (fun h => ("prices", h_id h, d2)) (handlers_of "prices" w).
Proof.
  intros Hr Hs w1 w2. pose proof (reachable_Inv w Hr) as HI.
  assert (w1 = log_emit "prices" d1 w) as E1.
  { unfold w1. apply relay_prices; auto. }
  assert (w2 = log_emit "prices" d2 w1) as E2.
  { unfold w2. apply relay_prices; auto.
    - apply reachable_Inv. unfold w1. by apply reachable_exec.
    - by rewrite E1. }
  split; [exact E1|]. split; [|split].
  - rewrite E2, E1. unfold log_emit. destruct w; cbn.
    by rewrite <- app_assoc.
  - by rewrite emissions_app, !emissions_emitted.
  - rewrite invocations_app. unfold emitted.
    change (invocations (Emit ?e ?d :: ?t)) with (invocations t).
    by rewrite !invocations_deliveries.
Qed.

Lemma C9_prices_relayed_witness :
  let h := mkHandler 7 (fun _ => None) in
  let w := run [CallOn "prices" h; CallConnect; TransportOpen 0;
                ServerMessage 0 "connected" ACK] (new_client no_options) in
  let d1 := VArr [VObj [("symbol", VStr "BTC")]] in
  let d2 := VArr [VObj [("symbol", VStr "ETH")]] in
  trace (run [ServerMessage 0 "prices:snapshot" d1;
              ServerMessage 0 "prices:update" d2] w)
  = trace w ++ [Emit "prices" d1; Invoked "prices" 7 d1;
                Emit "prices" d2; Invoked "prices" 7 d2].
Proof.
  intros h w d1 d2.
  assert (reachable w) as Hr.
  { exists no_options, [CallOn "prices" h; CallConnect; TransportOpen 0;
                        ServerMessage 0 "connected" ACK]. reflexivity. }
  assert (status_of 0 w = Some SConnected) as Hs by (vm_compute; reflexivity).
  destruct (C9_prices_relayed w 0 d1 d2 Hr Hs) as (_ & H2 & _).
  cbn [run fold_left]. rewrite H2. cbn [trace set_trace]. f_equal.
Defined.

(** ** C4: the connection acknowledgment *)



(** ** C2: the authenticated identity across disconnects *)

(** C2, what the code does.  In every reachable world a transport-level
    disconnect on the connected socket leaves [authenticatedWallet] exactly
    as it was ([handleDisconnect] does not touch it), whereas an explicit
    [disconnect()] sets it to null.  So after a successful handshake
    followed by a transport-level disconnect the identity is still set,
    although no handshake succeeded since that disconnect. *)
Theorem C2_identity_survives_transport_disconnect
    (w : World) (sid : nat) (reason : string) :
  reachable w -> status_of sid w = Some SConnected ->
  authenticatedWallet (exec (TransportDisconnect sid reason) w)
    = authenticatedWallet w /\
  status_of sid (exec (TransportDisconnect sid reason) w) = Some SClosed /\
  authenticatedWallet (exec CallDisconnect w) = VNull.
Proof.
  intros Hr Hs. pose proof (reachable_Inv w Hr) as HI.
  destruct (status_of_Some _ _ _ Hs) as (s & Hl & Hst).
  assert (sock_wf s) as Hwf.
  { pose proof (inv_wf w HI) as Hw. rewrite Forall_lookup in Hw. eauto. }
  rewrite (exec_transport_disconnect sid reason w s Hl Hst Hwf).
  match goal with |- context [handleDisconnect ?r ?x] =>
    pose proof (handleDisconnect_spec r x) as (_ & (E1&_) & _ & E2 & _) end.
  split; [exact E2|]. split.
  - unfold status_of. rewrite E1. cbn [sockets set_sockets].
    by rewrite list_lookup_alter_eq, Hl.
  - unfold exec, step. rewrite sync_call_fst. apply disconnect_spec.
Qed.

Lemma C2_identity_survives_transport_disconnect_witness :
  let w := run authenticated_run (new_client no_options) in
  let w' := exec (TransportDisconnect 0 "transport close") w in
  authenticatedWallet w = VStr "0xabc" /\
  authenticatedWallet w' = VStr "0xabc" /\
  authenticatedWallet w' <> VNull /\
  status_of 0 w' = Some SClosed /\ state w' = Reconnecting.
Proof.
  intros w w'.
  assert (reachable w) as Hr.
  { exists no_options, authenticated_run. reflexivity. }
  assert (status_of 0 w = Some SConnected) as Hs by (vm_compute; reflexivity).
  assert (authenticatedWallet w = VStr "0xabc") as Hw by (vm_compute; reflexivity).
  destruct (C2_identity_survives_transport_disconnect w 0 "transport close" Hr Hs)
    as (H1 & H2 & _).
  fold w' in H1, H2.
  split; [exact Hw|]. split; [by rewrite H1|]. split; [by rewrite H1, Hw|].
  split; [exact H2|]. vm_compute. reflexivity.
Defined.

(** After the automatic reconnect the stale identity lets [getBalance()]
    pass its guard on a connection that never authenticated: the request
    goes out on the new socket. *)
Example stale_identity_passes_guard :
  let w := run (authenticated_run ++
                [TransportDisconnect 0 "transport close"; TimerFire 1;
                 TransportOpen 1; ServerMessage 1 "connected" ACK;
                 CallGetBalance]) (new_client no_options) in
  omap (fun s => last (map m_event (s_sent s))) (sockets w)
    = ["authenticate"; "get:userBalance"].
Proof. vm_compute. reflexivity. Qed.

(** ** C10: an [authenticated] message after the timeout *)






(** The scenario of the specification: [{maxReconnectAttempts: 2,
    reconnectDelay: 100}] and three transport failures in a row give
    [reconnecting] for attempts 1 and 2 with delays 100 and 150, then the
    terminal [error] event, and state error. *)
Example scenario_three_failures :
  let w := run exhausting_run (new_client two_attempts) in
  state w = Error /\
  filter (fun e => bool_decide (fst e = "reconnecting" \/ fst e = "error"))
         (emissions (trace w))
  = [("error", connection_error_event (VObj [("message", VStr "refused")]));
     ("reconnecting", reconnecting_event 1 2);
     ("error", connection_error_event (VObj [("message", VStr "refused")]));
     ("reconnecting", reconnecting_event 2 2);
     ("error", connection_error_event (VObj [("message", VStr "refused")]));
     ("error", MAX_RECONNECT_ERROR)] /\
  map (fun t => Qred (t_delay t)) (timers w) = [100%Q; 150%Q].
Proof. vm_compute. repeat split. Qed.

(** * Further properties *)

(** ** What delivery keeps *)

(** A property that does not look at the sockets and that every listener
    keeps is kept by the delivery of any event. *)
Lemma socket_dispatch_keeps (P : World -> Prop) sid event data w :
  (forall ss w0, P w0 -> P (set_sockets ss w0)) ->
  (forall b d w0, P w0 -> P (fst (run_listener b d w0))) ->
  P w -> P (fst (socket_dispatch sid event data w)).
Proof.
  intros Hss Hrun Hw. unfold socket_dispatch, bind, get.
  destruct (sockets w !! sid) as [s|]; [|done].
  apply (forEach_inv P (deliver_to sid data) (listeners_for event s)); [|done].
  intros l w0 _ Hw0. split; [|apply deliver_to_spec].
  unfold deliver_to, bind. destruct (l_once l); cbn; apply Hrun; auto.
Qed.

Lemma socket_disconnect_keeps (P : World -> Prop) sid w :
  (forall ss w0, P w0 -> P (set_sockets ss w0)) ->
  (forall b d w0, P w0 -> P (fst (run_listener b d w0))) ->
  P w -> P (fst (socket_disconnect sid w)).
Proof.
  intros Hss Hrun Hw. unfold socket_disconnect, bind, get.
  destruct (sockets w !! sid) as [s|]; [|done].
  unfold update_socket, modify.
  destruct (bool_decide (s_status s = SConnected)); [|by apply Hss].
  apply socket_dispatch_keeps; auto.
Qed.

(** ** The configuration and the attempt counter *)

Lemma Policy_fields opts w w' :
  options w' = options w -> reconnectAttempts w' = reconnectAttempts w ->
  Policy opts w -> Policy opts w'.
Proof. unfold Policy, policy_ok. intros -> ->. done. Qed.

Lemma scheduleReconnect_Policy opts w :
  Policy opts w -> Policy opts (fst (scheduleReconnect w)).
Proof.
  intros (Ho & H0 & H1). rewrite scheduleReconnect_eq.
  destruct (maxReconnectAttempts (options w) <=? reconnectAttempts w)%Z eqn:Hm.
  - by repeat split.
  - apply Z.leb_gt in Hm. cbn [fst]. unfold schedule_next, Policy, policy_ok.
    world_fields. split; [done|]. lia.
Qed.

Lemma run_listener_Policy opts b d w :
  Policy opts w -> Policy opts (fst (run_listener b d w)).
Proof.
  intros HP. destruct b as [p|p| | |logical| |t p|t p]; cbn [run_listener].
  - unfold bind, modify, resolve, settle, modify. rewrite setState_eq, emit_eq.
    world_fields. destruct HP as (Ho & H0 & H1).
    destruct (promises w !! p) as [[]|]; (split; [done|]);
      unfold policy_ok; cbn; lia.
  - unfold bind, get. rewrite handleConnectionError_eq. cbn zeta.
    assert (Policy opts (fst (if autoReconnect (options w)
              then scheduleReconnect (log_emit "error" (connection_error_event d) w)
              else (log_emit "stateChange" (VStr "error")
                      (set_state Error
                         (log_emit "error" (connection_error_event d) w)), Ok tt))))
      as HP'.
    { destruct (autoReconnect (options w)).
      - apply scheduleReconnect_Policy. by apply (Policy_fields opts w).
      - by apply (Policy_fields opts w). }
    destruct (if autoReconnect (options w) then _ else _) as [w1 [[]|e]];
      cbn [fst] in *; [|done].
    destruct (bool_decide (state w1 = Connecting)); [|done].
    unfold reject. pose proof (settle_same p (Rejected (message_of d)) w1) as (_&_&E&_).
    pose proof (settle_fields p (Rejected (message_of d)) w1) as (_&_&E'&_).
    by apply (Policy_fields opts w1).
  - rewrite handleDisconnect_eq. cbn zeta.
    destruct (autoReconnect (options w) && _).
    + apply scheduleReconnect_Policy. by apply (Policy_fields opts w).
    + by apply (Policy_fields opts w).
  - rewrite emit_eq. by apply (Policy_fields opts w).
  - rewrite emit_eq. by apply (Policy_fields opts w).
  - rewrite emit_eq. by apply (Policy_fields opts w).
  - unfold bind, modify, resolve, settle, clearTimeout, modify. rewrite emit_eq.
    world_fields. destruct (promises w !! p) as [[]|]; by apply (Policy_fields opts w).
  - unfold bind, modify, reject, settle, clearTimeout, modify.
    world_fields. destruct (promises w !! p) as [[]|]; by apply (Policy_fields opts w).
Qed.

Lemma connect_Policy opts w : Policy opts w -> Policy opts (fst (connect w)).
Proof.
  intros HP. rewrite connect_eq.
  destruct (_ || _); by apply (Policy_fields opts w).
Qed.

Lemma disconnect_Policy opts w : Policy opts w -> Policy opts (fst (disconnect w)).
Proof.
  intros HP. rewrite disconnect_unfold. cbn [fst].
  pose proof (clear_reconnect_fields w) as (_&_&E3&_&_&_&_&_&_&E10).
  assert (Policy opts (clear_reconnect w)) as HP1 by (by apply (Policy_fields opts w)).
  unfold settle_disconnected.
  destruct (socket w) as [sid|].
  - assert (Policy opts (fst (socket_disconnect sid (clear_reconnect w)))) as HP2.
    { apply socket_disconnect_keeps; [| |done].
      - intros ss w0 H. by apply (Policy_fields opts w0).
      - intros b d w0. apply run_listener_Policy. }
    by apply (Policy_fields opts (fst (socket_disconnect sid (clear_reconnect w)))).
  - by apply (Policy_fields opts (clear_reconnect w)).
Qed.

Lemma environment_Policy opts a w :
  Policy opts w -> Policy opts (fst (environment a w)).
Proof.
  intros HP. unfold environment, bind, get.
  assert (forall ss w0, Policy opts w0 -> Policy opts (set_sockets ss w0)) as Hss.
  { intros ss w0 H. by apply (Policy_fields opts w0). }
  destruct a; try done.
  - destruct (bool_decide _); [|done]. by apply Hss.
  - destruct (bool_decide _); [|done]. unfold update_socket, modify.
    apply socket_dispatch_keeps; auto using run_listener_Policy.
  - destruct (bool_decide _); [|done]. unfold update_socket, modify.
    apply socket_dispatch_keeps; auto using run_listener_Policy.
  - destruct (_ && _); [|done].
    apply socket_dispatch_keeps; auto using run_listener_Policy.
  - destruct (_ && _); [|done]. unfold resolve.
    pose proof (settle_same promise (Resolved data) w) as (_&_&E&_).
    pose proof (settle_fields promise (Resolved data) w) as (_&_&E'&_).
    by apply (Policy_fields opts w).
  - destruct (timers w !! id) as [t|]; [|done].
    destruct (t_pending t); [|done].
    unfold clearTimeout, modify.
    assert (Policy opts (set_timers (alter cancel_timer id (timers w)) w)) as HP'
      by (by apply (Policy_fields opts w)).
    destruct (t_callback t) as [|p]; cbn [run_timer].
    + unfold bind. pose proof (connect_Policy _ _ HP') as Hc.
      by destruct (connect _) as [w1 [q|e]].
    + unfold reject.
      match goal with |- context [settle p ?s ?x] =>
        pose proof (settle_same p s x) as (_&_&E&_);
        pose proof (settle_fields p s x) as (_&_&E'&_) end.
      by apply (Policy_fields opts (set_timers (alter cancel_timer id (timers w)) w)).
Qed.

Lemma exec_Policy opts a w : Policy opts w -> Policy opts (exec a w).
Proof.
  intros HP. unfold exec, step.
  destruct a; rewrite ?sync_call_fst, ?async_call_fst;
    try (by apply environment_Policy).
  - by apply connect_Policy.
  - by apply disconnect_Policy.
  - unfold subscribePrices. rewrite guarded_emit_eq.
    destruct (not_connected w); [done|]. unfold send.
    destruct (socket w); [|done]. by apply (Policy_fields opts w).
  - unfold getPrices. rewrite guarded_emit_eq.
    destruct (not_connected w); [done|]. unfold send.
    destruct (socket w); [|done]. by apply (Policy_fields opts w).
  - unfold subscribeOrderBook. rewrite guarded_emit_eq.
    destruct (not_connected w); [done|]. unfold send.
    destruct (socket w); [|done]. by apply (Policy_fields opts w).
  - unfold subscribeTrades. rewrite guarded_emit_eq.
    destruct (not_connected w); [done|]. unfold send.
    destruct (socket w); [|done]. by apply (Policy_fields opts w).
  - unfold subscribeCandles. rewrite guarded_emit_eq.
    destruct (not_connected w); [done|]. unfold send.
    destruct (socket w); [|done]. by apply (Policy_fields opts w).
  - unfold unsubscribe. rewrite guarded_emit_eq.
    destruct (not_connected w); [done|]. unfold send.
    destruct (socket w); [|done]. by apply (Policy_fields opts w).
  - rewrite authenticate_eq. destruct (not_connected w);
      [by apply (Policy_fields opts w)|].
    destruct (socket w); [|done]. by apply (Policy_fields opts w).
  - rewrite getBalance_eq. destruct (not_connected w);
      [by apply (Policy_fields opts w)|].
    destruct (negb _); [by apply (Policy_fields opts w)|].
    destruct (socket w); [|done]. by apply (Policy_fields opts w).
  - by apply (Policy_fields opts w).
  - by apply (Policy_fields opts w).
  - unfold removeAllListeners, modify. cbn.
    destruct event as [e|]; [destruct (String.eqb e "")|];
      by apply (Policy_fields opts w).
Qed.

Lemma Policy_new o :
  Policy (resolve_options o) (new_client o).
Proof. split; [done|]. unfold policy_ok. cbn. lia. Qed.

(** X1.  The configuration resolved by the constructor is never changed by
    any method, transport event or timer, and the reconnect attempt counter
    always lies between 0 and maxReconnectAttempts (0 when that is
    negative): reconnection attempts are bounded. *)
Theorem config_fixed_attempts_bounded (o : ClientOptions) (acts : list Action) :
  let w := run acts (new_client o) in
  options w = resolve_options o /\
  (0 <= reconnectAttempts w <= Z.max 0 (maxReconnectAttempts (resolve_options o)))%Z.
Proof.
  intros w.
  assert (Policy (resolve_options o) w) as (Ho & H0 & H1).
  { unfold w. generalize (Policy_new o). generalize (new_client o).
    induction acts as [|a acts IH]; intros w0 HP; [done|].
    cbn. apply IH. by apply exec_Policy. }
  split; [done|]. rewrite <- Ho. lia.
Qed.

(** ** The handler registry *)

Lemma environment_handlers a w :
  eventHandlers (fst (environment a w)) = eventHandlers w.
Proof.
  unfold environment, bind, get.
  destruct a; try done.
  - by destruct (bool_decide _).
  - destruct (bool_decide _); [|done]. unfold update_socket, modify.
    match goal with |- context [socket_dispatch ?s ?e ?d ?x] =>
      by pose proof (socket_dispatch_frame s e d x) as (_&_&_&->&_) end.
  - destruct (bool_decide _); [|done]. unfold update_socket, modify.
    match goal with |- context [socket_dispatch ?s ?e ?d ?x] =>
      by pose proof (socket_dispatch_frame s e d x) as (_&_&_&->&_) end.
  - destruct (_ && _); [|done].
    by pose proof (socket_dispatch_frame sid event data w) as (_&_&_&->&_).
  - destruct (_ && _); [|done]. apply settle_same.
  - destruct (timers w !! id) as [t|]; [|done].
    destruct (t_pending t); [|done]. unfold clearTimeout, modify.
    destruct (t_callback t) as [|p]; cbn [run_timer].
    + unfold bind. rewrite connect_eq. by destruct (_ || _).
    + unfold reject. by rewrite (proj2 (proj2 (proj2 (settle_same _ _ _)))).
Qed.

(** Only the three registry methods change the registry. *)
Lemma exec_handlers a w :
  match a with
  | CallOn _ _ | CallOff _ _ | CallRemoveAllListeners _ => True
  | _ => eventHandlers (exec a w) = eventHandlers w
  end.
Proof.
  unfold exec, step.
  destruct a; rewrite ?sync_call_fst, ?async_call_fst;
    try done; try apply environment_handlers.
  - rewrite connect_eq. by destruct (_ || _).
  - apply disconnect_spec.
  - unfold subscribePrices. rewrite guarded_emit_eq.
    destruct (not_connected w); [done|]. unfold send. by destruct (socket w).
  - unfold getPrices. rewrite guarded_emit_eq.
    destruct (not_connected w); [done|]. unfold send. by destruct (socket w).
  - unfold subscribeOrderBook. rewrite guarded_emit_eq.
    destruct (not_connected w); [done|]. unfold send. by destruct (socket w).
  - unfold subscribeTrades. rewrite guarded_emit_eq.
    destruct (not_connected w); [done|]. unfold send. by destruct (socket w).
  - unfold subscribeCandles. rewrite guarded_emit_eq.
    destruct (not_connected w); [done|]. unfold send. by destruct (socket w).
  - unfold unsubscribe. rewrite guarded_emit_eq.
    destruct (not_connected w); [done|]. unfold send. by destruct (socket w).
  - rewrite authenticate_eq. destruct (not_connected w); [done|].
    by destruct (socket w).
  - rewrite getBalance_eq. destruct (not_connected w); [done|].
    destruct (negb _); [done|]. by destruct (socket w).
Qed.

Lemma set_add_ids h hs :
  map h_id (set_add h hs) =
  if bool_decide (h_id h ∈ map h_id hs) then map h_id hs else map h_id hs ++ [h_id h].
Proof.
  unfold set_add.
  destruct (existsb (fun h' => Nat.eqb (h_id h') (h_id h)) hs) eqn:He.
  - rewrite bool_decide_eq_true_2; [done|].
    apply existsb_exists in He as (h' & Hin & Heq%Nat.eqb_eq).
    rewrite <- Heq. apply list_elem_of_In, in_map. done.
  - rewrite bool_decide_eq_false_2; [by rewrite map_app|].
    intros Hin%list_elem_of_In%in_map_iff. destruct Hin as (h' & Heq & Hin).
    assert (existsb (fun h' => Nat.eqb (h_id h') (h_id h)) hs = true); [|congruence].
    apply existsb_exists. exists h'. split; [done|]. by apply Nat.eqb_eq.
Qed.

Lemma set_add_NoDup h hs :
  NoDup (map h_id hs) -> NoDup (map h_id (set_add h hs)).
Proof.
  intros Hn. rewrite set_add_ids. case_bool_decide; [done|].
  apply NoDup_app. split; [done|]. split; [|apply NoDup_singleton].
  intros x Hx ->%list_elem_of_singleton. done.
Qed.

Lemma set_delete_ids id hs :
  map h_id (set_delete id hs) = filter (fun x => x ≠ id) (map h_id hs).
Proof.
  unfold set_delete. induction hs as [|h hs IH]; [done|].
  cbn [map]. rewrite !filter_cons. destruct (decide (h_id h ≠ id)); cbn; by rewrite IH.
Qed.

Lemma set_delete_NoDup id hs :
  NoDup (map h_id hs) -> NoDup (map h_id (set_delete id hs)).
Proof. intros Hn. rewrite set_delete_ids. by apply NoDup_filter. Qed.

Lemma registry_ok_exec a w : registry_ok w -> registry_ok (exec a w).
Proof.
  intros Hok. pose proof (exec_handlers a w) as He.
  destruct a; try (unfold registry_ok; by rewrite He).
  - (* on *)
    unfold exec, step. rewrite sync_call_fst. unfold on, modify. cbn [fst].
    intros ev hs. cbn [eventHandlers set_eventHandlers].
    destruct (decide (event = ev)) as [->|Hne].
    + rewrite lookup_insert_eq. intros [= <-]. apply set_add_NoDup.
      destruct (eventHandlers w !! ev) as [hs0|] eqn:E; cbn; [by apply (Hok ev)|].
      constructor.
    + rewrite lookup_insert_ne by done. apply Hok.
  - (* off *)
    unfold exec, step. rewrite sync_call_fst. unfold off, modify. cbn [fst].
    intros ev hs. cbn [eventHandlers set_eventHandlers].
    destruct (decide (event = ev)) as [->|Hne].
    + rewrite lookup_alter_eq. destruct (eventHandlers w !! ev) as [hs0|] eqn:E; [|done].
      cbn. intros [= <-]. apply set_delete_NoDup. by apply (Hok ev).
    + rewrite lookup_alter_ne by done. apply Hok.
  - (* removeAllListeners *)
    unfold exec, step. rewrite sync_call_fst. unfold removeAllListeners, modify.
    cbn [fst]. intros ev hs.
    destruct event as [e|]; [destruct (String.eqb e "")|];
      cbn [eventHandlers set_eventHandlers]; try by rewrite lookup_empty.
    destruct (decide (e = ev)) as [->|Hne].
    + by rewrite lookup_delete_eq.
    + rewrite lookup_delete_ne by done. apply Hok.
Qed.

Lemma reachable_registry_ok w : reachable w -> registry_ok w.
Proof.
  intros (o & acts & ->).
  assert (registry_ok (new_client o)) as H0.
  { intros ev hs. cbn. by rewrite lookup_empty. }
  revert H0. generalize (new_client o).
  induction acts as [|a acts IH]; intros w0 H0; [done|].
  cbn. apply IH. by apply registry_ok_exec.
Qed.

Lemma handlers_of_on event h w event' :
  handlers_of event' (exec (CallOn event h) w) =
  if decide (event = event') then set_add h (handlers_of event' w)
  else handlers_of event' w.
Proof.
  unfold exec, step. rewrite sync_call_fst. unfold on, modify, handlers_of.
  cbn [fst eventHandlers set_eventHandlers].
  destruct (decide (event = event')) as [->|Hne].
  - by rewrite lookup_insert_eq.
  - by rewrite lookup_insert_ne.
Qed.

Lemma handlers_of_off event id w event' :
  handlers_of event' (exec (CallOff event id) w) =
  if decide (event = event') then set_delete id (handlers_of event' w)
  else handlers_of event' w.
Proof.
  unfold exec, step. rewrite sync_call_fst. unfold off, modify, handlers_of.
  cbn [fst eventHandlers set_eventHandlers].
  destruct (decide (event = event')) as [->|Hne].
  - rewrite lookup_alter_eq. by destruct (eventHandlers w !! event').
  - by rewrite lookup_alter_ne.
Qed.

(** X2.  [on(event, handler)] in any reachable world: afterwards the
    handler is called exactly once by each emission of the event (the set
    holds no handler twice), the handlers registered before keep their
    places in front of it, registering a handler that is already there
    changes nothing, and the handlers of every other event, the sockets and
    the state are untouched. *)
Theorem on_registers_once (w : World) (event : string) (h : Handler) :
  reachable w ->
  let w' := exec (CallOn event h) w in
  NoDup (handler_ids event w') /\
  h_id h ∈ handler_ids event w' /\
  (exists rest, handlers_of event w' = handlers_of event w ++ rest) /\
  (h_id h ∈ handler_ids event w -> handlers_of event w' = handlers_of event w) /\
  (forall event', event' <> event -> handlers_of event' w' = handlers_of event' w) /\
  sockets w' = sockets w /\ state w' = state w /\ trace w' = trace w.
Proof.
  intros Hr w'. pose proof (reachable_registry_ok w Hr) as Hok.
  assert (NoDup (map h_id (handlers_of event w))) as Hn.
  { unfold handlers_of. destruct (eventHandlers w !! event) as [hs|] eqn:E; cbn.
    - by apply (Hok event). - constructor. }
  unfold handler_ids, w'. rewrite handlers_of_on, decide_True by done.
  split; [by apply set_add_NoDup|]. split; [|split; [|split; [|split]]].
  - rewrite set_add_ids. case_bool_decide; [done|].
    apply elem_of_app. right. by left.
  - unfold set_add. destruct (existsb _ _); [exists []; by rewrite app_nil_r|].
    by eexists.
  - intros Hin. unfold set_add.
    destruct (existsb (fun h' => Nat.eqb (h_id h') (h_id h)) (handlers_of event w))
      eqn:He; [done|].
    exfalso. apply list_elem_of_In, in_map_iff in Hin as (h' & Heq & Hin).
    assert (existsb (fun h' => Nat.eqb (h_id h') (h_id h)) (handlers_of event w) = true);
      [|congruence].
    apply existsb_exists. exists h'. split; [done|]. by apply Nat.eqb_eq.
  - intros ev' Hne. rewrite handlers_of_on, decide_False; [done|congruence].
  - done.
Qed.

Lemma on_registers_once_witness :
  let h := mkHandler 3 (fun _ => None) in
  let w := run [CallOn "prices" (mkHandler 1 (fun _ => None)); CallOn "prices" h]
               (new_client no_options) in
  reachable w /\
  handler_ids "prices" (exec (CallOn "prices" h) w) = [1; 3] /\
  NoDup (handler_ids "prices" (exec (CallOn "prices" h) w)).
Proof.
  intros h w.
  assert (reachable w) as Hr.
  { exists no_options,
      [CallOn "prices" (mkHandler 1 (fun _ => None)); CallOn "prices" h].
    reflexivity. }
  split; [exact Hr|]. split; [vm_compute; reflexivity|].
  exact (proj1 (on_registers_once w "prices" h Hr)).
Defined.

(** X3.  [off(event, handler)]: afterwards no emission of the event calls
    that handler, the remaining handlers keep their order, and other events
    are untouched; removing a handler that was never registered (or from an
    event without handlers) changes no delivery.  Registering a handler
    that was not there and removing it again restores every delivery. *)
Theorem off_removes (w : World) (event : string) (h : Handler) :
  let w' := exec (CallOff event (h_id h)) w in
  (h_id h ∉ handler_ids event w') /\
  handlers_of event w' = filter (fun h' => h_id h' ≠ h_id h) (handlers_of event w) /\
  (forall event', event' <> event -> handlers_of event' w' = handlers_of event' w) /\
  (h_id h ∉ handler_ids event w ->
     handlers_of event w' = handlers_of event w /\
     forall event',
       handlers_of event' (exec (CallOff event (h_id h)) (exec (CallOn event h) w))
       = handlers_of event' w).
Proof.
  intros w'. unfold w', handler_ids.
  rewrite handlers_of_off, decide_True by done.
  assert (forall hs, h_id h ∉ map h_id hs -> set_delete (h_id h) hs = hs) as Hid.
  { intros hs Hn. unfold set_delete. induction hs as [|x hs IH]; [done|].
    rewrite filter_cons. cbn [map] in Hn. apply not_elem_of_cons in Hn as [H1 H2].
    rewrite decide_True by congruence. by rewrite IH. }
  split; [|split; [done|split]].
  - rewrite set_delete_ids. intros [Hne _]%list_elem_of_filter. done.
  - intros ev' Hne. rewrite handlers_of_off, decide_False; [done|congruence].
  - intros Hn. split; [by apply Hid|].
    intros ev'. rewrite handlers_of_off, handlers_of_on.
    destruct (decide (event = ev')) as [->|Hne]; [|done].
    unfold set_add.
    destruct (existsb (fun h' => Nat.eqb (h_id h') (h_id h)) (handlers_of ev' w)) eqn:He.
    + by apply Hid.
    + unfold set_delete. rewrite filter_app, filter_cons, filter_nil.
      rewrite decide_False by (intros Hc; by apply Hc).
      rewrite app_nil_r. by apply Hid.
Qed.

Lemma off_removes_witness :
  let h := mkHandler 3 (fun _ => None) in
  let w := run [CallOn "prices" (mkHandler 1 (fun _ => None))] (new_client no_options) in
  handler_ids "prices" (exec (CallOff "prices" 3) (exec (CallOn "prices" h) w)) = [1].
Proof.
  intros h w.
  destruct (off_removes w "prices" h) as (_ & _ & _ & H).
  destruct H as [_ H].
  { intros Hin. apply list_elem_of_In in Hin. vm_compute in Hin.
    destruct Hin as [Hin|Hin]; [inversion Hin|exact Hin]. }
  unfold handler_ids. cbn [h_id h] in H. rewrite (H "prices"). reflexivity.
Defined.

(** X4.  [removeAllListeners(event)] with a non-empty name leaves that
    event without handlers and every other event as it was;
    [removeAllListeners()] and, because the empty string is falsy,
    [removeAllListeners("")] leave every event without handlers.  An
    emission of an event without handlers calls nobody.  The sockets, the
    state and the trace are untouched. *)
Theorem removeAllListeners_clears (w : World) (event : option string) :
  let w' := exec (CallRemoveAllListeners event) w in
  (forall e, event = Some e -> e <> "" ->
     handlers_of e w' = [] /\
     forall e', e' <> e -> handlers_of e' w' = handlers_of e' w) /\
  (event = None \/ event = Some "" -> forall e', handlers_of e' w' = []) /\
  (forall e d, handlers_of e w' = [] -> emitted e d w' = [Emit e d]) /\
  sockets w' = sockets w /\ state w' = state w /\ trace w' = trace w.
Proof.
  intros w'. unfold w', exec, step. rewrite sync_call_fst.
  unfold removeAllListeners, modify, handlers_of. cbn [fst].
  split; [|split; [|split]].
  - intros e -> Hne. apply String.eqb_neq in Hne. rewrite Hne.
    cbn [eventHandlers set_eventHandlers]. rewrite lookup_delete_eq. split; [done|].
    intros e' Hne'. by rewrite lookup_delete_ne.
  - intros [-> | ->] e'; cbn; by rewrite lookup_empty.
  - intros e d He. unfold emitted, handlers_of. by rewrite He.
  - by destruct event as [e|]; [destruct (String.eqb e "")|].
Qed.

Lemma removeAllListeners_clears_witness :
  let w := run [CallOn "prices" (mkHandler 1 (fun _ => None));
                CallOn "trades" (mkHandler 2 (fun _ => None))] (new_client no_options) in
  handler_ids "prices" (exec (CallRemoveAllListeners (Some "prices")) w) = [] /\
  handler_ids "trades" (exec (CallRemoveAllListeners (Some "prices")) w) = [2] /\
  handler_ids "trades" (exec (CallRemoveAllListeners (Some "")) w) = [].
Proof.
  intros w.
  destruct (removeAllListeners_clears w (Some "prices")) as (H1 & _).
  destruct (H1 "prices" eq_refl) as [Ha Hb]; [discriminate|].
  destruct (removeAllListeners_clears w (Some "")) as (_ & H2 & _).
  unfold handler_ids. rewrite Ha, (Hb "trades"), H2; [|by right|discriminate].
  repeat split.
Defined.

(** ** Transport failures and the reconnection policy, end to end *)

Lemma emissions_log_emit event data w :
  emissions (trace (log_emit event data w)) = emissions (trace w) ++ [(event, data)].
Proof. unfold log_emit. cbn [trace set_trace]. by rewrite emissions_app, emissions_emitted. Qed.

(** The two outcomes of [scheduleReconnect]. *)
Lemma scheduleReconnect_outcome w :
  let w' := fst (scheduleReconnect w) in
  let max := maxReconnectAttempts (options w) in
  let k := (reconnectAttempts w + 1)%Z in
  ((max <= reconnectAttempts w)%Z ->
     state w' = Error /\ timers w' = timers w /\
     reconnectAttempts w' = reconnectAttempts w /\
     reconnectTimer w' = reconnectTimer w /\
     emissions (trace w') = emissions (trace w)
       ++ [("stateChange", VStr "error"); ("error", MAX_RECONNECT_ERROR)]) /\
  ((reconnectAttempts w < max)%Z ->
     state w' = Reconnecting /\
     timers w' = timers w
       ++ [mkTimer TReconnect (backoff_delay (reconnectDelay (options w)) k) true] /\
     reconnectAttempts w' = k /\
     reconnectTimer w' = Some (length (timers w)) /\
     emissions (trace w') = emissions (trace w)
       ++ [("stateChange", VStr "reconnecting");
           ("reconnecting", reconnecting_event k max)]).
Proof.
  intros w' max k. subst w'. rewrite scheduleReconnect_eq. fold max. split.
  - intros H. rewrite (proj2 (Z.leb_le _ _)) by done.
    cbn [fst]. unfold attempts_exhausted.
    rewrite !emissions_log_emit, <- app_assoc. by repeat split.
  - intros H. rewrite (proj2 (Z.leb_gt _ _)) by done.
    cbn [fst]. unfold schedule_next. fold k max. world_fields.
    rewrite !emissions_app, !emissions_emitted, <- app_assoc. by repeat split.
Qed.

(** The "connect_error" listener of [connect()] never reaches its
    [reject(error)]: [handleConnectionError] always leaves a state other
    than connecting. *)
Lemma connect_error_listener p data w :
  run_listener (OnConnectError p) data w = handleConnectionError data w.
Proof.
  cbn [run_listener]. unfold bind, get.
  pose proof (handleConnectionError_spec data w) as (H1&_&H3&_).
  destruct (handleConnectionError data w) as [w1 r]; cbn [fst snd] in *. subst r.
  rewrite bool_decide_eq_false_2; [done|]. destruct H3; congruence.
Qed.

Lemma exec_transport_connect_error sid message w s :
  sockets w !! sid = Some s -> s_status s = SOpening -> sock_wf s ->
  exec (TransportConnectError sid message) w =
  fst (handleConnectionError (VObj [("message", VStr message)])
         (set_sockets (alter (set_status SClosed) sid (sockets w)) w)).
Proof.
  intros Hs Hst Hwf. unfold exec, step. rewrite sync_call_fst.
  unfold environment, bind, get.
  assert (status_of sid w = Some SOpening) as Hso.
  { unfold status_of. by rewrite Hs, <- Hst. }
  rewrite (bool_decide_eq_true_2 _ Hso). unfold update_socket, modify.
  destruct (listeners_for_connect_error (set_status SClosed s)) as (p & Hp);
    [by apply set_status_wf|].
  rewrite (socket_dispatch_single _ _ _ _ (set_status SClosed s) (OnConnectError p)).
  - by rewrite connect_error_listener.
  - cbn. by rewrite list_lookup_alter_eq, Hs.
  - done.
Qed.

Lemma reachable_socket_wf w sid s :
  reachable w -> sockets w !! sid = Some s -> sock_wf s.
Proof.
  intros Hr Hs. pose proof (inv_wf w (reachable_Inv w Hr)) as Hw.
  rewrite Forall_lookup in Hw. eauto.
Qed.

(** X5.  A connection failure reported by the transport while the socket
    is being opened (reachable worlds): the socket is closed and an [error]
    event with code CONNECTION_ERROR and the transport's message is
    emitted first.  Without auto-reconnect the state becomes error and no
    timer is scheduled; with auto-reconnect the policy runs: below the
    maximum the counter grows by one, the state becomes reconnecting and
    one timer with the backoff delay is scheduled, at the maximum the state
    becomes error with the MAX_RECONNECT_ATTEMPTS event and no timer.  The
    identity and every promise are left as they were. *)
Theorem connection_error_outcomes (w : World) (sid : nat) (message : string) :
  reachable w -> status_of sid w = Some SOpening ->
  let w' := exec (TransportConnectError sid message) w in
  let max := maxReconnectAttempts (options w) in
  let k := (reconnectAttempts w + 1)%Z in
  let before := emissions (trace w) ++ [("error", connection_error_of message)] in
  status_of sid w' = Some SClosed /\
  authenticatedWallet w' = authenticatedWallet w /\
  field "code" (connection_error_of message) = VStr "CONNECTION_ERROR" /\
  field "message" (connection_error_of message) = VStr message /\
  (autoReconnect (options w) = false ->
     state w' = Error /\ timers w' = timers w /\
     reconnectAttempts w' = reconnectAttempts w /\
     emissions (trace w') = before ++ [("stateChange", VStr "error")]) /\
  (autoReconnect (options w) = true -> (reconnectAttempts w < max)%Z ->
     state w' = Reconnecting /\ reconnectAttempts w' = k /\
     timers w' = timers w
       ++ [mkTimer TReconnect (backoff_delay (reconnectDelay (options w)) k) true] /\
     reconnectTimer w' = Some (length (timers w)) /\
     emissions (trace w') = before
       ++ [("stateChange", VStr "reconnecting");
           ("reconnecting", reconnecting_event k max)]) /\
  (autoReconnect (options w) = true -> (max <= reconnectAttempts w)%Z ->
     state w' = Error /\ timers w' = timers w /\
     reconnectAttempts w' = reconnectAttempts w /\
     emissions (trace w') = before
       ++ [("stateChange", VStr "error"); ("error", MAX_RECONNECT_ERROR)]).
Proof.
  intros Hr Hs w' max k before.
  destruct (status_of_Some _ _ _ Hs) as (s & Hl & Hst).
  pose proof (reachable_socket_wf w sid s Hr Hl) as Hwf.
  unfold w'. rewrite (exec_transport_connect_error sid message w s Hl Hst Hwf).
  set (wc := set_sockets (alter (set_status SClosed) sid (sockets w)) w).
  set (err := VObj [("message", VStr message)]).
  pose proof (handleConnectionError_spec err wc) as (_ & (E1&_) & _ & E4 & _).
  rewrite handleConnectionError_eq in *. cbn zeta in *.
  set (w1 := log_emit "error" (connection_error_event err) wc) in *.
  pose proof (scheduleReconnect_outcome w1) as [Hex Hnext].
  assert (emissions (trace w1) = before) as Hb.
  { unfold w1. by rewrite emissions_log_emit. }
  change (options wc) with (options w) in *.
  split; [|split; [done|split; [done|split; [done|split; [|split]]]]].
  - unfold status_of. rewrite E1. cbn [sockets set_sockets wc].
    by rewrite list_lookup_alter_eq, Hl.
  - intros Ha. rewrite Ha. cbn [fst]. rewrite emissions_log_emit.
    change (trace (set_state Error w1)) with (trace w1). rewrite Hb. by repeat split.
  - intros Ha Hlt. rewrite Ha. destruct (Hnext Hlt) as (H1&H2&H3&H4&H5).
    rewrite H5, Hb. by repeat split.
  - intros Ha Hle. rewrite Ha. destruct (Hex Hle) as (H1&H2&H3&H4&H5).
    rewrite H5, Hb. by repeat split.
Qed.

Lemma connection_error_outcomes_witness :
  let w := run [CallConnect] (new_client no_reconnect) in
  let w' := exec (TransportConnectError 0 "refused") w in
  reachable w /\ state w' = Error /\ timers w' = [] /\
  emissions (trace w') =
    [("stateChange", VStr "connecting"); ("error", connection_error_of "refused");
     ("stateChange", VStr "error")].
Proof.
  intros w w'.
  assert (reachable w) as Hr by (exists no_reconnect, [CallConnect]; reflexivity).
  assert (status_of 0 w = Some SOpening) as Hs by (vm_compute; reflexivity).
  destruct (connection_error_outcomes w 0 "refused" Hr Hs) as (_&_&_&_&H&_).
  destruct H as (H1&H2&_&H4); [vm_compute; reflexivity|].
  split; [exact Hr|]. split; [exact H1|]. split; [exact H2|]. exact H4.
Defined.

(** X6.  A transport-level disconnect of the connected socket (reachable
    worlds): the socket is closed, [stateChange "disconnected"] and then
    [disconnected {reason}] are emitted and the promises are left alone.
    Without auto-reconnect, or when the reason is "io client disconnect",
    the client settles in disconnected and schedules nothing.  Otherwise
    the policy runs: below the maximum the counter grows by one, the state
    becomes reconnecting and one timer with the backoff delay is scheduled;
    at the maximum the state becomes error with the MAX_RECONNECT_ATTEMPTS
    event and no timer. *)
Theorem transport_disconnect_outcomes (w : World) (sid : nat) (reason : string) :
  reachable w -> status_of sid w = Some SConnected ->
  let w' := exec (TransportDisconnect sid reason) w in
  let max := maxReconnectAttempts (options w) in
  let k := (reconnectAttempts w + 1)%Z in
  let before := emissions (trace w)
                ++ [("stateChange", VStr "disconnected");
                    ("disconnected", disconnected_event reason)] in
  status_of sid w' = Some SClosed /\ promises w' = promises w /\
  (autoReconnect (options w) = false \/ reason = IO_CLIENT_DISCONNECT ->
     state w' = Disconnected /\ timers w' = timers w /\
     reconnectAttempts w' = reconnectAttempts w /\
     emissions (trace w') = before) /\
  (autoReconnect (options w) = true -> reason <> IO_CLIENT_DISCONNECT ->
   (reconnectAttempts w < max)%Z ->
     state w' = Reconnecting /\ reconnectAttempts w' = k /\
     timers w' = timers w
       ++ [mkTimer TReconnect (backoff_delay (reconnectDelay (options w)) k) true] /\
     reconnectTimer w' = Some (length (timers w)) /\
     emissions (trace w') = before
       ++ [("stateChange", VStr "reconnecting");
           ("reconnecting", reconnecting_event k max)]) /\
  (autoReconnect (options w) = true -> reason <> IO_CLIENT_DISCONNECT ->
   (max <= reconnectAttempts w)%Z ->
     state w' = Error /\ timers w' = timers w /\
     reconnectAttempts w' = reconnectAttempts w /\
     emissions (trace w') = before
       ++ [("stateChange", VStr "error"); ("error", MAX_RECONNECT_ERROR)]).
Proof.
  intros Hr Hs w' max k before.
  destruct (status_of_Some _ _ _ Hs) as (s & Hl & Hst).
  pose proof (reachable_socket_wf w sid s Hr Hl) as Hwf.
  unfold w'. rewrite (exec_transport_disconnect sid reason w s Hl Hst Hwf).
  set (wc := set_sockets (alter (set_status SClosed) sid (sockets w)) w).
  pose proof (handleDisconnect_spec (VStr reason) wc) as (_ & (E1&_) & _ & _ & E5).
  rewrite handleDisconnect_eq in *. cbn zeta in *.
  set (w1 := log_emit "disconnected" (VObj [("reason", VStr reason)])
               (log_emit "stateChange" (VStr "disconnected")
                  (set_state Disconnected wc))) in *.
  pose proof (scheduleReconnect_outcome w1) as [Hex Hnext].
  assert (emissions (trace w1) = before) as Hb.
  { unfold w1. rewrite !emissions_log_emit, <- app_assoc. done. }
  change (options wc) with (options w) in *.
  cbn [is_string] in *.
  split; [|split; [done|split; [|split]]].
  - unfold status_of. rewrite E1. cbn [sockets set_sockets wc].
    by rewrite list_lookup_alter_eq, Hl.
  - intros Hc.
    assert (autoReconnect (options w)
            && negb (String.eqb reason "io client disconnect") = false) as ->.
    { destruct Hc as [-> | ->]; [done|]. by rewrite andb_false_r. }
    by repeat split.
  - intros Ha Hne%String.eqb_neq Hlt. unfold IO_CLIENT_DISCONNECT in Hne.
    rewrite Ha, Hne. cbn [andb negb].
    destruct (Hnext Hlt) as (H1&H2&H3&H4&H5). rewrite H5, Hb. by repeat split.
  - intros Ha Hne%String.eqb_neq Hle. unfold IO_CLIENT_DISCONNECT in Hne.
    rewrite Ha, Hne. cbn [andb negb].
    destruct (Hex Hle) as (H1&H2&H3&H4&H5). rewrite H5, Hb. by repeat split.
Qed.

Lemma transport_disconnect_outcomes_witness :
  let w := run [CallConnect; TransportOpen 0; ServerMessage 0 "connected" ACK]
               (new_client two_attempts) in
  let w' := exec (TransportDisconnect 0 "transport close") w in
  reachable w /\ state w' = Reconnecting /\ reconnectAttempts w' = 1%Z /\
  timers w' = [mkTimer TReconnect (backoff_delay 100 1) true].
Proof.
  intros w w'.
  assert (reachable w) as Hr.
  { exists two_attempts, [CallConnect; TransportOpen 0; ServerMessage 0 "connected" ACK].
    reflexivity. }
  assert (status_of 0 w = Some SConnected) as Hs by (vm_compute; reflexivity).
  destruct (transport_disconnect_outcomes w 0 "transport close" Hr Hs) as (_&_&_&H&_).
  destruct H as (H1&H2&H3&_); [vm_compute; reflexivity|discriminate|vm_compute; reflexivity|].
  split; [exact Hr|]. split; [exact H1|]. split; [exact H2|]. exact H3.
Defined.

(** ** The promise of [connect()] *)




(** ** [disconnect()] *)

Lemma disconnect_closed w :
  Forall sock_wf (sockets w) ->
  fst (disconnect w) =
  settle_disconnected
    match socket w with
    | Some sid =>
        match sockets w !! sid with
        | Some s => set_socket None (closed_by_client sid s (clear_reconnect w))
        | None => set_socket None (clear_reconnect w)
        end
    | None => clear_reconnect w
    end.
Proof.
  intros Hwf. rewrite disconnect_unfold. cbn [fst].
  pose proof (clear_reconnect_fields w) as (_&E2&_).
  destruct (socket w) as [sid|]; [|done].
  destruct (sockets w !! sid) as [s|] eqn:Hs.
  - rewrite (socket_disconnect_wf sid _ s); [done|by rewrite E2|].
    rewrite Forall_lookup in Hwf. eauto.
  - unfold socket_disconnect, bind, get. by rewrite E2, Hs.
Qed.

Lemma timer_fire_cancelled t w :
  (forall tm, timers w !! t = Some tm -> t_pending tm = false) ->
  exec (TimerFire t) w = w.
Proof.
  intros Ht. unfold exec, step. rewrite sync_call_fst. unfold environment, bind, get.
  destruct (timers w !! t) as [tm|] eqn:E; [|done].
  by rewrite (Ht tm eq_refl).
Qed.

(** X8.  [disconnect()] in any reachable world leaves the state
    disconnected, no socket referenced, every socket closed and the
    identity cleared.  It cancels the timer held in [reconnectTimer] and
    schedules none, also with auto-reconnect on: that timer firing later
    changes nothing.  The attempt counter and the promises are left as they
    were.  When the referenced socket was connected, a [disconnected] event
    with reason "io client disconnect" is emitted between two
    [stateChange "disconnected"] events; otherwise only one [stateChange]
    is emitted. *)
Theorem disconnect_tears_down (w : World) :
  reachable w ->
  let w' := exec CallDisconnect w in
  state w' = Disconnected /\ socket w' = None /\
  authenticatedWallet w' = VNull /\ reconnectTimer w' = None /\
  (forall i s, sockets w' !! i = Some s -> s_status s = SClosed) /\
  timers w' = timers_after_disconnect w /\
  reconnectAttempts w' = reconnectAttempts w /\ promises w' = promises w /\
  (forall t, reconnectTimer w = Some t -> exec (TimerFire t) w' = w') /\
  emissions (trace w') = emissions (trace w) ++
    (if transport_connected w
     then [("stateChange", VStr "disconnected");
           ("disconnected", disconnected_event IO_CLIENT_DISCONNECT);
           ("stateChange", VStr "disconnected")]
     else [("stateChange", VStr "disconnected")]).
Proof.
  intros Hr w'. pose proof (reachable_Inv w Hr) as HI.
  pose proof (disconnect_Inv w HI) as HI'.
  pose proof (disconnect_spec w) as (_&D1&D2&D3&_).
  assert (w' = fst (disconnect w)) as E.
  { unfold w', exec, step. by rewrite sync_call_fst. }
  rewrite <- E in *.
  pose proof (disconnect_clears_timer w (inv_wf w HI)) as D4. rewrite <- E in D4.
  pose proof (clear_reconnect_fields w) as (C1&C2&C3&C4&C5&C6&C7&C8&C9&C10).
  assert (timers (clear_reconnect w) = timers_after_disconnect w) as Ct.
  { unfold clear_reconnect, timers_after_disconnect. by destruct (reconnectTimer w). }
  assert (timers w' = timers_after_disconnect w /\
          reconnectAttempts w' = reconnectAttempts w /\ promises w' = promises w /\
          emissions (trace w') = emissions (trace w) ++
            (if transport_connected w
             then [("stateChange", VStr "disconnected");
                   ("disconnected", disconnected_event IO_CLIENT_DISCONNECT);
                   ("stateChange", VStr "disconnected")]
             else [("stateChange", VStr "disconnected")])) as (T1&T2&T3&T4).
  { rewrite E, (disconnect_closed w (inv_wf w HI)). unfold settle_disconnected.
    unfold transport_connected, status_of.
    destruct (socket w) as [sid|] eqn:Hso.
    - destruct (sockets w !! sid) as [s|] eqn:Hs.
      + unfold closed_by_client. cbn [fmap option_fmap option_map].
        destruct (decide (s_status s = SConnected)) as [Hc|Hc].
        * rewrite (bool_decide_eq_true_2 _ Hc).
          rewrite bool_decide_eq_true_2 by (by rewrite Hc).
          world_fields. rewrite Ct, C10, C8, C7.
          rewrite !emissions_app, !emissions_emitted, <- !app_assoc. done.
        * rewrite (bool_decide_eq_false_2 _ Hc).
          rewrite bool_decide_eq_false_2 by (intros [=]; done).
          world_fields. rewrite Ct, C10, C8, C7.
          rewrite !emissions_app, !emissions_emitted. done.
      + cbn [fmap option_fmap option_map].
        rewrite bool_decide_eq_false_2 by done.
        world_fields. rewrite Ct, C10, C8, C7.
        rewrite !emissions_app, !emissions_emitted. done.
    - world_fields. rewrite Ct, C10, C8, C7.
      rewrite !emissions_app, !emissions_emitted. done. }
  split; [done|]. split; [done|]. split; [done|]. split; [done|]. split.
  - intros i s Hi. destruct (decide (s_status s = SClosed)) as [|Hn]; [done|].
    destruct (inv_live _ HI' i s Hi Hn) as [Hso _]. congruence.
  - split; [done|]. split; [done|]. split; [done|]. split; [|done].
    intros t Ht. apply timer_fire_cancelled. intros tm. rewrite T1.
    unfold timers_after_disconnect. rewrite Ht, list_lookup_alter_eq.
    destruct (timers w !! t); [|done]. cbn. by intros [= <-].
Qed.

Lemma disconnect_tears_down_witness :
  let w := run [CallConnect; TransportOpen 0; ServerMessage 0 "connected" ACK;
                TransportDisconnect 0 "transport close"] (new_client no_options) in
  let w' := exec CallDisconnect w in
  reachable w /\ reconnectTimer w = Some 0 /\ state w = Reconnecting /\
  state w' = Disconnected /\ exec (TimerFire 0) w' = w'.
Proof.
  intros w w'.
  assert (reachable w) as Hr.
  { exists no_options, [CallConnect; TransportOpen 0; ServerMessage 0 "connected" ACK;
                        TransportDisconnect 0 "transport close"]. reflexivity. }
  assert (reconnectTimer w = Some 0) as Ht by (vm_compute; reflexivity).
  destruct (disconnect_tears_down w Hr) as (H1&_&_&_&_&_&_&_&H9&_).
  split; [exact Hr|]. split; [exact Ht|]. split; [vm_compute; reflexivity|].
  split; [exact H1|exact (H9 0 Ht)].
Defined.

(** ** The authentication handshake *)





Lemma cancelled_after_alter (t : nat) (ts : list Timer) (tm : Timer) :
  alter cancel_timer t ts !! t = Some tm -> t_pending tm = false.
Proof.
  rewrite list_lookup_alter_eq. destruct (ts !! t); [|done]. cbn. by intros [= <-].
Qed.







(** ** Requests on a connected client *)

Lemma connected_socket w :
  reachable w -> state w = Connected ->
  exists sid s, socket w = Some sid /\ sockets w !! sid = Some s /\
                s_status s = SConnected /\ not_connected w = false.
Proof.
  intros Hr Hst. destruct (inv_connected w (reachable_Inv w Hr) Hst)
    as (sid & s & Hso & Hl & Hstat).
  exists sid, s. split; [done|]. split; [done|]. split; [done|].
  unfold not_connected. rewrite Hso, Hst.
  by rewrite bool_decide_eq_false_2, bool_decide_eq_true_2.
Qed.

(** X11.  In state connected (reachable worlds) each of subscribePrices,
    getPrices, subscribeOrderBook, subscribeTrades, subscribeCandles and
    unsubscribe returns normally after writing exactly one message to the
    referenced socket: the request named after the method with the
    arguments as payload ([subscribePrices()] and [subscribePrices("")]
    send an empty object).  Nothing is emitted, no promise or timer is
    created, and the state and the other sockets are untouched. *)
Theorem requests_when_connected (w : World) (a : Action) (m : Sent) :
  reachable w -> state w = Connected -> request_of a = Some m ->
  exists sid s,
    socket w = Some sid /\ sockets w !! sid = Some s /\
    step a w = (set_sockets (<[sid := add_sent m s]> (sockets w)) w, Returned) /\
    s_sent (add_sent m s) = s_sent s ++ [m] /\
    s_listeners (add_sent m s) = s_listeners s /\
    m_ack m = None.
Proof.
  intros Hr Hst Hm.
  destruct (connected_socket w Hr Hst) as (sid & s & Hso & Hl & _ & Hnc).
  exists sid, s. split; [done|]. split; [done|].
  assert (forall m0, send m0 w = set_sockets (<[sid := add_sent m0 s]> (sockets w)) w)
    as Hsend.
  { intros m0. unfold send. rewrite Hso. f_equal.
    apply list_eq. intros i. destruct (decide (sid = i)) as [<-|Hne].
    - rewrite list_lookup_alter_eq, Hl. cbn. symmetry.
      apply list_lookup_insert_eq. by apply lookup_lt_Some in Hl.
    - by rewrite list_lookup_alter_ne, list_lookup_insert_ne. }
  split; [|split; [done|split; [done|]]].
  - destruct a; try discriminate; unfold step, sync_call.
    + unfold subscribePrices. rewrite guarded_emit_eq, Hnc, Hsend.
      destruct asset as [asset|]; cbn in Hm; by simplify_eq.
    + unfold getPrices. rewrite guarded_emit_eq, Hnc, Hsend. cbn in Hm. by simplify_eq.
    + unfold subscribeOrderBook. rewrite guarded_emit_eq, Hnc, Hsend.
      cbn in Hm. by simplify_eq.
    + unfold subscribeTrades. rewrite guarded_emit_eq, Hnc, Hsend.
      cbn in Hm. by simplify_eq.
    + unfold subscribeCandles. rewrite guarded_emit_eq, Hnc, Hsend.
      cbn in Hm. by simplify_eq.
    + unfold unsubscribe. rewrite guarded_emit_eq, Hnc, Hsend.
      cbn in Hm. by simplify_eq.
  - destruct a; try discriminate; cbn in Hm; try (by simplify_eq).
    destruct asset; by simplify_eq.
Qed.

Lemma requests_when_connected_witness :
  let w := run [CallConnect; TransportOpen 0; ServerMessage 0 "connected" ACK]
               (new_client no_options) in
  reachable w /\ state w = Connected /\
  exists sid s,
    socket w = Some sid /\ sockets w !! sid = Some s /\
    step (CallSubscribeCandles "BTC" "1m") w =
      (set_sockets
         (<[sid := add_sent (mkSent "subscribe:candle"
                     (VObj [("coin", VStr "BTC"); ("interval", VStr "1m")]) None) s]>
            (sockets w)) w, Returned).
Proof.
  intros w.
  assert (reachable w) as Hr.
  { exists no_options, [CallConnect; TransportOpen 0; ServerMessage 0 "connected" ACK].
    reflexivity. }
  assert (state w = Connected) as Hst by (vm_compute; reflexivity).
  split; [exact Hr|]. split; [exact Hst|].
  destruct (requests_when_connected w (CallSubscribeCandles "BTC" "1m") _ Hr Hst eq_refl)
    as (sid & s & H1 & H2 & H3 & _).
  exists sid, s. split; [exact H1|]. split; [exact H2|exact H3].
Defined.

(** X12.  [getBalance()] in state connected (reachable worlds).  Without an
    identity (null, or a falsy wallet such as the empty string) it returns
    a promise rejected with the "Not authenticated" error, which differs
    from the "Not connected" one, and writes nothing to the socket.  With
    an identity it returns a pending promise and writes one
    [get:userBalance] request carrying the acknowledgement callback; when
    the server calls that callback with a value, the promise is resolved
    with this value. *)
Theorem getBalance_paths (w : World) :
  reachable w -> state w = Connected ->
  exists sid s,
    socket w = Some sid /\ sockets w !! sid = Some s /\
    let p := length (promises w) in
    NOT_AUTHENTICATED <> NOT_CONNECTED /\
    (truthy (authenticatedWallet w) = false ->
       step CallGetBalance w =
       (set_promises (promises w ++ [Rejected NOT_AUTHENTICATED]) w, Promise p)) /\
    (truthy (authenticatedWallet w) = true ->
       let w1 := exec CallGetBalance w in
       step CallGetBalance w = (w1, Promise p) /\
       promises w1 !! p = Some Pending /\
       sockets w1 !! sid
         = Some (add_sent (mkSent "get:userBalance" VUndefined (Some p)) s) /\
       trace w1 = trace w /\ state w1 = Connected /\
       forall v, promises (exec (ServerAck sid p v) w1) !! p = Some (Resolved v)).
Proof.
  intros Hr Hst.
  destruct (connected_socket w Hr Hst) as (sid & s & Hso & Hl & Hstat & Hnc).
  exists sid, s. split; [done|]. split; [done|]. intros p.
  split; [discriminate|]. split.
  - intros Ht. unfold step, async_call. by rewrite getBalance_eq, Hnc, Ht.
  - intros Ht w1.
    assert (step CallGetBalance w = (balance_requested sid w, Promise p)) as Hstep.
    { unfold step, async_call. by rewrite getBalance_eq, Hnc, Ht, Hso. }
    assert (w1 = balance_requested sid w) as E1 by (unfold w1, exec; by rewrite Hstep).
    assert (promises w1 !! p = Some Pending) as Hp1.
    { rewrite E1. unfold balance_requested. world_fields. by apply list_lookup_middle. }
    assert (sockets w1 !! sid
            = Some (add_sent (mkSent "get:userBalance" VUndefined (Some p)) s)) as Hs1.
    { rewrite E1. unfold balance_requested. world_fields.
      by rewrite list_lookup_alter_eq, Hl. }
    split; [by rewrite E1|]. split; [done|]. split; [done|].
    split; [by rewrite E1|]. split; [by rewrite E1|].
    intros v. unfold exec, step. rewrite sync_call_fst.
    unfold environment, bind, get.
    assert (status_of sid w1 = Some SConnected) as ->.
    { unfold status_of. rewrite Hs1. cbn. by rewrite Hstat. }
    assert (p ∈ acks_of sid w1) as Hin.
    { unfold acks_of. rewrite Hs1. cbn [s_sent add_sent].
      rewrite omap_app. apply elem_of_app. right. cbn. by left. }
    rewrite bool_decide_eq_true_2 by done. rewrite (bool_decide_eq_true_2 _ Hin).
    cbn [andb]. unfold resolve, settle, modify. cbn [fst]. rewrite Hp1. cbn.
    apply list_lookup_insert_eq. by apply lookup_lt_Some in Hp1.
Qed.

Lemma getBalance_paths_witness :
  let w := run [CallConnect; TransportOpen 0; ServerMessage 0 "connected" ACK]
               (new_client no_options) in
  let w' := run authenticated_run (new_client no_options) in
  reachable w /\ state w = Connected /\
  step CallGetBalance w =
    (set_promises (promises w ++ [Rejected NOT_AUTHENTICATED]) w,
     Promise (length (promises w))) /\
  reachable w' /\ state w' = Connected /\
  exists sid,
    socket w' = Some sid /\
    promises (exec (ServerAck sid (length (promises w')) (VNum 12.5))
                (exec CallGetBalance w')) !! length (promises w')
      = Some (Resolved (VNum 12.5)).
Proof.
  intros w w'.
  assert (reachable w) as Hr.
  { exists no_options, [CallConnect; TransportOpen 0; ServerMessage 0 "connected" ACK].
    reflexivity. }
  assert (state w = Connected) as Hst by (vm_compute; reflexivity).
  assert (reachable w') as Hr' by (exists no_options, authenticated_run; reflexivity).
  assert (state w' = Connected) as Hst' by (vm_compute; reflexivity).
  split; [exact Hr|]. split; [exact Hst|]. split.
  - destruct (getBalance_paths w Hr Hst) as (sid & s & _ & _ & _ & H & _).
    apply H. vm_compute. reflexivity.
  - split; [exact Hr'|]. split; [exact Hst'|].
    destruct (getBalance_paths w' Hr' Hst') as (sid & s & Hso & _ & _ & _ & H).
    exists sid. split; [exact Hso|].
    destruct H as (_&_&_&_&_&H); [vm_compute; reflexivity|]. exact (H (VNum 12.5)).
Defined.

(** ** Messages from the server *)




Lemma known_listener_events s l :
  sock_wf s -> l ∈ s_listeners s -> l_event l ∈ known_events.
Proof.
  intros (p & auths & Hl & Ha). rewrite Hl. intros [Hin|Hin]%elem_of_app.
  - assert (forallb (fun l => bool_decide (l_event l ∈ known_events))
                    (connect_listeners p) = true) as Hall by reflexivity.
    rewrite forallb_forall in Hall. apply list_elem_of_In, Hall in Hin.
    by apply bool_decide_eq_true in Hin.
  - rewrite forallb_forall in Ha. apply list_elem_of_In, Ha in Hin.
    unfold auth_listener in Hin. apply andb_prop in Hin as [_ Hin].
    destruct (l_body l); try discriminate; apply String.eqb_eq in Hin; rewrite Hin;
      unfold known_events; set_solver.
Qed.

(** X14.  A message whose name no listener was installed for is ignored:
    in every reachable world it changes nothing at all, whatever socket it
    is addressed to and whatever it carries. *)
Theorem unknown_message_ignored (w : World) (sid : nat) (event : string) (data : value) :
  reachable w -> event ∉ known_events ->
  exec (ServerMessage sid event data) w = w.
Proof.
  intros Hr Hn. unfold exec, step. rewrite sync_call_fst.
  unfold environment, bind, get.
  destruct (bool_decide (status_of sid w = Some SConnected)) eqn:Hb; [|done].
  destruct (reserved_event event); [done|]. cbn [andb negb].
  apply bool_decide_eq_true in Hb. destruct (status_of_Some _ _ _ Hb) as (s & Hl & _).
  unfold socket_dispatch, bind, get. rewrite Hl.
  assert (listeners_for event s = []) as ->; [|done].
  unfold listeners_for.
  destruct (filter (fun l => l_event l = event) (s_listeners s)) as [|l rest] eqn:E;
    [done|].
  assert (l ∈ filter (fun l => l_event l = event) (s_listeners s)) as Hin
    by (rewrite E; by left).
  apply list_elem_of_filter in Hin as [<- Hin]. exfalso. apply Hn.
  by apply (known_listener_events s l (reachable_socket_wf w sid s Hr Hl)).
Qed.

Lemma unknown_message_ignored_witness :
  let w := run [CallConnect; TransportOpen 0; ServerMessage 0 "connected" ACK]
               (new_client no_options) in
  exec (ServerMessage 0 "liquidation:update" (VObj [])) w = w.
Proof.
  intros w. apply unknown_message_ignored.
  - exists no_options, [CallConnect; TransportOpen 0; ServerMessage 0 "connected" ACK].
    reflexivity.
  - intros Hin. apply list_elem_of_In in Hin. vm_compute in Hin.
    repeat (destruct Hin as [Hin|Hin]; [discriminate Hin|]). exact Hin.
Defined.

Lemma listeners_for_error s :
  sock_wf s -> listeners_for "error" s = [mkListener "error" false OnServerError].
Proof.
  intros (p & auths & Hl & Ha). rewrite (listeners_for_wf _ _ _ _ Hl).
  by rewrite (auth_listeners_other _ _ Ha).
Qed.

(** X15.  An application error sent by the server (message [error]) on the
    connected socket is relayed verbatim as one [error] event and drives
    nothing: the state, the attempt counter, the timers, the sockets, the
    identity and the promises are left as they were (reachable worlds). *)
Theorem server_error_relayed (w : World) (sid : nat) (data : value) :
  reachable w -> status_of sid w = Some SConnected ->
  exec (ServerMessage sid "error" data) w
    = set_trace (trace w ++ emitted "error" data w) w /\
  emissions (emitted "error" data w) = [("error", data)].
Proof.
  intros Hr Hs. destruct (status_of_Some _ _ _ Hs) as (s & Hl & Hst).
  pose proof (reachable_socket_wf w sid s Hr Hl) as Hwf.
  rewrite exec_server_message by done.
  rewrite (socket_dispatch_single _ _ _ _ s OnServerError Hl (listeners_for_error s Hwf)).
  cbn [run_listener]. rewrite emit_eq. split; [done|apply emissions_emitted].
Qed.

Lemma server_error_relayed_witness :
  let w := run [CallConnect; TransportOpen 0; ServerMessage 0 "connected" ACK]
               (new_client no_options) in
  let e := VObj [("code", VStr "RATE_LIMIT"); ("message", VStr "slow down")] in
  state (exec (ServerMessage 0 "error" e) w) = Connected /\
  emissions (trace (exec (ServerMessage 0 "error" e) w))
    = emissions (trace w) ++ [("error", e)].
Proof.
  intros w e.
  assert (reachable w) as Hr.
  { exists no_options, [CallConnect; TransportOpen 0; ServerMessage 0 "connected" ACK].
    reflexivity. }
  assert (status_of 0 w = Some SConnected) as Hs by (vm_compute; reflexivity).
  destruct (server_error_relayed w 0 e Hr Hs) as [H1 H2].
  rewrite H1. cbn [state trace set_trace]. split; [vm_compute; reflexivity|].
  by rewrite emissions_app, H2.
Defined.

(** ** Accessors and guards *)



(** ** Reconnecting *)

Lemma connect_listeners_events p :
  map l_event (connect_listeners p) = connect_events.
Proof. reflexivity. Qed.

Lemma connect_events_NoDup : NoDup connect_events.
Proof. apply (bool_decide_unpack _). vm_compute. reflexivity. Qed.

Lemma filter_unique_key (ls : list Listener) event :
  NoDup (map l_event ls) ->
  length (filter (fun l => l_event l = event) ls)
  = if bool_decide (event ∈ map l_event ls) then 1 else 0.
Proof.
  induction ls as [|l ls IH]; intros Hn; [done|].
  cbn [map] in Hn. apply NoDup_cons in Hn as [Hnot Hn].
  rewrite filter_cons. cbn [map].
  destruct (decide (l_event l = event)) as [<-|Hne].
  - cbn [length]. rewrite IH by done.
    rewrite (bool_decide_eq_false_2 _ Hnot).
    rewrite bool_decide_eq_true_2; [done|by left].
  - rewrite IH by done.
    rewrite (bool_decide_ext (event ∈ l_event l :: map l_event ls)
               (event ∈ map l_event ls)); [done|].
    rewrite elem_of_cons. split; [intros [->|?]; done|by right].
Qed.

(** X17.  Listeners do not pile up.  On every socket of every reachable
    world, each message name other than the two one-shot authentication
    names has exactly one listener if [connect()] installs one for it and
    none otherwise, however many times the client connected, reconnected or
    authenticated before. *)
Theorem one_listener_per_event (w : World) (sid : nat) (s : Sock) (event : string) :
  reachable w -> sockets w !! sid = Some s ->
  event <> "authenticated" -> event <> "auth:error" ->
  length (listeners_for event s)
  = if bool_decide (event ∈ connect_events) then 1 else 0.
Proof.
  intros Hr Hl H1 H2.
  destruct (reachable_socket_wf w sid s Hr Hl) as (p & auths & Hls & Ha).
  rewrite (listeners_for_wf _ _ _ _ Hls), (auth_listeners_other _ _ Ha) by done.
  rewrite app_nil_r, filter_unique_key; rewrite connect_listeners_events;
    [done|apply connect_events_NoDup].
Qed.

Lemma one_listener_per_event_witness :
  let w := run (exhausting_run ++ [CallConnect; TransportOpen 3;
                                   ServerMessage 3 "connected" ACK;
                                   CallAuthenticate "0xabc"])
               (new_client two_attempts) in
  exists s, sockets w !! 3 = Some s /\
            length (listeners_for "prices:update" s) = 1 /\
            length (listeners_for "ticker" s) = 0.
Proof.
  intros w.
  assert (reachable w) as Hr.
  { exists two_attempts,
      (exhausting_run ++ [CallConnect; TransportOpen 3;
                          ServerMessage 3 "connected" ACK; CallAuthenticate "0xabc"]).
    reflexivity. }
  destruct (sockets w !! 3) as [s|] eqn:Hs; [|vm_compute in Hs; discriminate Hs].
  exists s. split; [reflexivity|]. split.
  - rewrite (one_listener_per_event w 3 s "prices:update" Hr Hs); [|discriminate..].
    vm_compute. reflexivity.
  - rewrite (one_listener_per_event w 3 s "ticker" Hr Hs); [|discriminate..].
    vm_compute. reflexivity.
Defined.

(** X18.  When a reconnect timer fires it is used up: firing it again
    changes nothing.  If the client is neither connected nor connecting, a
    fresh socket is opened to the configured URL with the listeners of
    [connect()], the state becomes connecting and the attempt counter is
    left as it is.  If the client is already connected or connecting, the
    timer opens no socket and changes neither the state nor the trace. *)
Theorem reconnect_timer_fires (w : World) (t : nat) (tm : Timer) :
  timers w !! t = Some tm -> t_callback tm = TReconnect -> t_pending tm = true ->
  let w' := exec (TimerFire t) w in
  exec (TimerFire t) w' = w' /\
  reconnectAttempts w' = reconnectAttempts w /\ options w' = options w /\
  (state w <> Connected -> state w <> Connecting ->
     state w' = Connecting /\ socket w' = Some (length (sockets w)) /\
     sockets w' = sockets w
       ++ [mkSock (url (options w)) SOpening
             (connect_listeners (length (promises w))) []] /\
     emissions (trace w') = emissions (trace w) ++ [("stateChange", VStr "connecting")]) /\
  (state w = Connected \/ state w = Connecting ->
     sockets w' = sockets w /\ socket w' = socket w /\
     state w' = state w /\ trace w' = trace w).
Proof.
  intros Ht Hcb Hp w'.
  set (w0 := set_timers (alter cancel_timer t (timers w)) w).
  assert (w' = fst (connect w0)) as E.
  { unfold w', exec, step. rewrite sync_call_fst. unfold environment, bind, get.
    rewrite Ht, Hp, Hcb. cbn [run_timer]. unfold clearTimeout, modify, bind.
    fold w0. by destruct (connect w0) as [w1 [p|e]]. }
  assert (timers w' = alter cancel_timer t (timers w)) as Et.
  { rewrite E, connect_eq. by destruct (_ || _). }
  split; [|split; [|split; [|split]]].
  - apply timer_fire_cancelled. intros tm'. rewrite Et. apply cancelled_after_alter.
  - rewrite E, connect_eq. by destruct (_ || _).
  - rewrite E, connect_eq. by destruct (_ || _).
  - intros H1 H2. rewrite E, (connect_opens w0) by done. cbn [fst].
    unfold open_transport. world_fields.
    rewrite emissions_app, emissions_emitted. by repeat split.
  - intros Hc. rewrite E, connect_eq.
    assert (bool_decide (state w0 = Connected) || bool_decide (state w0 = Connecting)
            = true) as ->; [|done].
    destruct Hc as [Hc|Hc]; change (state w0) with (state w); rewrite Hc; done.
Qed.

Lemma reconnect_timer_fires_witness :
  let w := run [CallConnect; TransportConnectError 0 "refused"] (new_client no_options) in
  let w' := exec (TimerFire 0) w in
  state w = Reconnecting /\ state w' = Connecting /\ socket w' = Some 1 /\
  exec (TimerFire 0) w' = w'.
Proof.
  intros w w'.
  assert (timers w !! 0 = Some (mkTimer TReconnect (1000 * (1 # 1))%Q true)) as Ht
    by (vm_compute; reflexivity).
  destruct (reconnect_timer_fires w 0 _ Ht eq_refl eq_refl) as (H1 & _ & _ & H4 & _).
  destruct H4 as (H5 & H6 & _); [vm_compute; discriminate|vm_compute; discriminate|].
  split; [vm_compute; reflexivity|]. split; [exact H5|]. split; [|exact H1].
  transitivity (Some (length (sockets w))); [exact H6|vm_compute; reflexivity].
Defined.

(** ** What changes the connection state and the identity *)

Lemma closure_event_fits s l event :
  sock_wf s -> l ∈ s_listeners s -> closure_event (l_body l) = Some event ->
  l_event l = event.
Proof.
  intros (p & auths & Hl & Ha). rewrite Hl. intros [Hin|Hin]%elem_of_app Hc.
  - assert (forallb (fun l => match closure_event (l_body l) with
                              | Some e => String.eqb (l_event l) e
                              | None => true
                              end) (connect_listeners p) = true) as Hall by reflexivity.
    rewrite forallb_forall in Hall. apply list_elem_of_In, Hall in Hin.
    rewrite Hc in Hin. by apply String.eqb_eq.
  - rewrite forallb_forall in Ha. apply list_elem_of_In, Ha in Hin.
    unfold auth_listener in Hin. apply andb_prop in Hin as [_ Hin].
    destruct (l_body l); try discriminate; apply String.eqb_eq in Hin;
      cbn in Hc; congruence.
Qed.

Lemma socket_dispatch_post sid event data w :
  Forall sock_wf (sockets w) ->
  delivery_post event data w (fst (socket_dispatch sid event data w)).
Proof.
  intros Hwf.
  destruct (sockets w !! sid) as [s|] eqn:Hs;
    [|unfold socket_dispatch, bind, get; rewrite Hs; split; by left].
  assert (sock_wf s) as Hs_wf by (rewrite Forall_lookup in Hwf; eauto).
  apply (socket_dispatch_effect (delivery_post event data w) sid event data w s Hs).
  - intros w0 w1 E1 E2 _. unfold delivery_post. by rewrite E1, E2.
  - intros l w0 Hl (Hst & Hid).
    apply list_elem_of_filter in Hl as [He Hl].
    pose proof (closure_event_fits s l) as Hfit.
    pose proof (run_listener_spec (l_body l) data w0) as (_ & _ & Heff).
    unfold delivery_post.
    destruct (l_body l) eqn:Hb; cbn [listener_effect closure_event] in Heff, Hfit.
    + destruct Heff as (E1 & _ & E2). rewrite E1, E2. split; [|done].
      right; left. split; [|done]. rewrite <- He. by apply Hfit.
    + destruct Heff as (E1 & E2). rewrite E2. split; [|done].
      right; right; left. split; [|done]. rewrite <- He. by apply Hfit.
    + destruct Heff as (E1 & E2). rewrite E2. split; [|done].
      right; right; right. split; [|done]. rewrite <- He. by apply Hfit.
    + destruct Heff as (E1 & E2). by rewrite E1, E2.
    + destruct Heff as (E1 & E2). by rewrite E1, E2.
    + destruct Heff as (E1 & E2). by rewrite E1, E2.
    + destruct Heff as (E1 & E2 & _). rewrite E1, E2. split; [done|].
      right. split; [|done]. rewrite <- He. by apply Hfit.
    + destruct Heff as (E1 & E2). by rewrite E1, E2.
  - split; by left.
Qed.

Lemma closed_socket_post sid event data w :
  Forall sock_wf (sockets w) ->
  delivery_post event data w
    (fst (socket_dispatch sid event data
            (set_sockets (alter (set_status SClosed) sid (sockets w)) w))).
Proof.
  intros Hwf.
  apply (socket_dispatch_post sid event data
           (set_sockets (alter (set_status SClosed) sid (sockets w)) w)).
  world_fields. apply Forall_alter; [done|]. intros s _. apply set_status_wf.
Qed.

Lemma timer_fire_fields id w :
  let w' := fst (environment (TimerFire id) w) in
  authenticatedWallet w' = authenticatedWallet w /\
  (state w' = state w \/ state w' = Connecting).
Proof.
  unfold environment, bind, get.
  destruct (timers w !! id) as [t|]; [|by split; [|left]].
  destruct (t_pending t); [|by split; [|left]]. unfold clearTimeout, modify.
  destruct (t_callback t) as [|p]; cbn [run_timer].
  - unfold bind. rewrite connect_eq.
    destruct (_ || _); cbn; split; try done; [by left|by right].
  - unfold reject.
    pose proof (settle_fields p (Rejected "Authentication timeout")
                  (set_timers (alter cancel_timer id (timers w)) w)) as (E1 & E2 & _).
    split; [exact E2|left; exact E1].
Qed.

Lemma caller_request_fields m w :
  authenticatedWallet (send m w) = authenticatedWallet w /\
  state (send m w) = state w.
Proof. unfold send. by destruct (socket w). Qed.

(** X19.  The identity changes in two ways only (reachable worlds):
    [disconnect()] sets it to null, and a server message "authenticated"
    sets it to the [wallet] field of the message.  No other call, transport
    event, acknowledgement or timer changes what [getAuthenticatedWallet()]
    returns. *)
Theorem identity_changes_only (w : World) (a : Action) :
  reachable w ->
  getAuthenticatedWallet (exec a w) <> getAuthenticatedWallet w ->
  (a = CallDisconnect /\ getAuthenticatedWallet (exec a w) = VNull) \/
  (exists sid data, a = ServerMessage sid "authenticated" data /\
                    getAuthenticatedWallet (exec a w) = field "wallet" data).
Proof.
  intros Hr. pose proof (inv_wf w (reachable_Inv w Hr)) as Hwf.
  unfold getAuthenticatedWallet, exec, step.
  destruct a; rewrite ?sync_call_fst, ?async_call_fst; intros Hne.
  - exfalso. apply Hne. rewrite connect_eq. by destruct (_ || _).
  - left. split; [done|]. apply disconnect_spec.
  - exfalso. apply Hne. unfold subscribePrices. rewrite guarded_emit_eq.
    destruct (not_connected w); [done|]. apply caller_request_fields.
  - exfalso. apply Hne. unfold getPrices. rewrite guarded_emit_eq.
    destruct (not_connected w); [done|]. apply caller_request_fields.
  - exfalso. apply Hne. unfold subscribeOrderBook. rewrite guarded_emit_eq.
    destruct (not_connected w); [done|]. apply caller_request_fields.
  - exfalso. apply Hne. unfold subscribeTrades. rewrite guarded_emit_eq.
    destruct (not_connected w); [done|]. apply caller_request_fields.
  - exfalso. apply Hne. unfold subscribeCandles. rewrite guarded_emit_eq.
    destruct (not_connected w); [done|]. apply caller_request_fields.
  - exfalso. apply Hne. unfold unsubscribe. rewrite guarded_emit_eq.
    destruct (not_connected w); [done|]. apply caller_request_fields.
  - exfalso. apply Hne. rewrite authenticate_eq.
    destruct (not_connected w); [done|]. by destruct (socket w).
  - exfalso. apply Hne. rewrite getBalance_eq.
    destruct (not_connected w); [done|]. destruct (negb _); [done|].
    by destruct (socket w).
  - by exfalso.
  - by exfalso.
  - exfalso. apply Hne. unfold removeAllListeners, modify. cbn.
    destruct event as [e|]; [|done]. by destruct (String.eqb e "").
  - exfalso. apply Hne. unfold environment, bind, get.
    by destruct (bool_decide _).
  - exfalso. apply Hne. unfold environment, bind, get.
    destruct (bool_decide _); [|done]. unfold update_socket, modify.
    destruct (closed_socket_post sid "connect_error"
                (VObj [("message", VStr message)]) w Hwf) as (_ & [E|[E _]]);
      [exact E|discriminate E].
  - exfalso. apply Hne. unfold environment, bind, get.
    destruct (bool_decide _); [|done]. unfold update_socket, modify.
    destruct (closed_socket_post sid "disconnect" (VStr reason) w Hwf)
      as (_ & [E|[E _]]); [exact E|discriminate E].
  - unfold environment, bind, get in *.
    destruct (_ && _); [|by exfalso].
    destruct (socket_dispatch_post sid event data w Hwf) as (_ & [E|[-> E]]);
      [by exfalso|]. right. by exists sid, data.
  - exfalso. apply Hne. unfold environment, bind, get.
    destruct (_ && _); [|done]. unfold resolve. apply settle_fields.
  - exfalso. apply Hne. apply timer_fire_fields.
Qed.

Lemma identity_changes_only_witness :
  let w := run [CallConnect; TransportOpen 0; ServerMessage 0 "connected" ACK;
                CallAuthenticate "0xabc"] (new_client no_options) in
  getAuthenticatedWallet w = VNull /\
  getAuthenticatedWallet (exec (ServerMessage 0 "authenticated" WALLET) w) = VStr "0xabc".
Proof.
  intros w.
  assert (reachable w) as Hr.
  { exists no_options, [CallConnect; TransportOpen 0; ServerMessage 0 "connected" ACK;
                        CallAuthenticate "0xabc"]. reflexivity. }
  assert (getAuthenticatedWallet w = VNull) as E0 by (vm_compute; reflexivity).
  assert (getAuthenticatedWallet (exec (ServerMessage 0 "authenticated" WALLET) w)
          <> getAuthenticatedWallet w) as Hne.
  { rewrite E0. vm_compute. intros H. inversion H. }
  split; [exact E0|].
  destruct (identity_changes_only w _ Hr Hne) as [[H _]|(sid & data & H & E)].
  - inversion H.
  - rewrite E. inversion H. reflexivity.
Defined.

(** X20.  The connection state machine (reachable worlds).  The state
    changes only as follows: [connect()] and a reconnect timer lead to
    connecting; [disconnect()] leads to disconnected; a server message
    "connected" leads to connected; a connection failure leads to error or
    reconnecting; a transport disconnect leads to disconnected, error or
    reconnecting.  Every other action, the subscription and authentication
    calls, acknowledgements and all other server messages among them, leaves
    the state as it is. *)
Theorem state_transitions (w : World) (a : Action) :
  reachable w -> getState (exec a w) <> getState w ->
  transition_of a (getState (exec a w)).
Proof.
  intros Hr. pose proof (inv_wf w (reachable_Inv w Hr)) as Hwf.
  unfold getState, exec, step.
  destruct a; rewrite ?sync_call_fst, ?async_call_fst; intros Hne;
    cbn [transition_of].
  - revert Hne. rewrite connect_eq. destruct (_ || _); [by intros []|done].
  - apply disconnect_spec.
  - apply Hne. unfold subscribePrices. rewrite guarded_emit_eq.
    destruct (not_connected w); [done|]. apply caller_request_fields.
  - apply Hne. unfold getPrices. rewrite guarded_emit_eq.
    destruct (not_connected w); [done|]. apply caller_request_fields.
  - apply Hne. unfold subscribeOrderBook. rewrite guarded_emit_eq.
    destruct (not_connected w); [done|]. apply caller_request_fields.
  - apply Hne. unfold subscribeTrades. rewrite guarded_emit_eq.
    destruct (not_connected w); [done|]. apply caller_request_fields.
  - apply Hne. unfold subscribeCandles. rewrite guarded_emit_eq.
    destruct (not_connected w); [done|]. apply caller_request_fields.
  - apply Hne. unfold unsubscribe. rewrite guarded_emit_eq.
    destruct (not_connected w); [done|]. apply caller_request_fields.
  - apply Hne. rewrite authenticate_eq.
    destruct (not_connected w); [done|]. by destruct (socket w).
  - apply Hne. rewrite getBalance_eq.
    destruct (not_connected w); [done|]. destruct (negb _); [done|].
    by destruct (socket w).
  - by apply Hne.
  - by apply Hne.
  - apply Hne. unfold removeAllListeners, modify. cbn.
    destruct event as [e|]; [|done]. by destruct (String.eqb e "").
  - apply Hne. unfold environment, bind, get. by destruct (bool_decide _).
  - unfold environment, bind, get in *.
    destruct (bool_decide _); [|by exfalso]. unfold update_socket, modify in *.
    destruct (closed_socket_post sid "connect_error"
                (VObj [("message", VStr message)]) w Hwf)
      as ([E|[[E _]|[[_ E]|[E _]]]] & _);
      [by exfalso|discriminate E|exact E|discriminate E].
  - unfold environment, bind, get in *.
    destruct (bool_decide _); [|by exfalso]. unfold update_socket, modify in *.
    destruct (closed_socket_post sid "disconnect" (VStr reason) w Hwf)
      as ([E|[[E _]|[[E _]|[_ E]]]] & _);
      [by exfalso|discriminate E|discriminate E|exact E].
  - unfold environment, bind, get in *.
    destruct (bool_decide _) eqn:Hb; cbn [andb] in *; [|by exfalso].
    destruct (negb (reserved_event event)) eqn:Hres; [|by exfalso].
    destruct (socket_dispatch_post sid event data w Hwf)
      as ([E|[[-> E]|[[-> _]|[-> _]]]] & _);
      [by exfalso|done|discriminate Hres|discriminate Hres].
  - apply Hne. unfold environment, bind, get.
    destruct (_ && _); [|done]. unfold resolve. apply settle_fields.
  - destruct (timer_fire_fields id w) as (_ & [E|E]); [by exfalso|exact E].
Qed.

Lemma state_transitions_witness :
  let w := run [CallConnect; TransportOpen 0] (new_client no_options) in
  getState w = Connecting /\
  getState (exec (ServerMessage 0 "connected" ACK) w) = Connected.
Proof.
  intros w.
  assert (reachable w) as Hr.
  { exists no_options, [CallConnect; TransportOpen 0]. reflexivity. }
  assert (getState w = Connecting) as E0 by (vm_compute; reflexivity).
  assert (getState (exec (ServerMessage 0 "connected" ACK) w) <> getState w) as Hne.
  { rewrite E0. vm_compute. intros H. inversion H. }
  split; [exact E0|].
  exact (proj2 (state_transitions w _ Hr Hne)).
Defined.
